(** * utils_nlp: preprocessing, batching, prediction glue and download helper

    A shallow embedding of
      - utils_nlp/bert/common.py
      - utils_nlp/bert/token_classification.py
      - utils_nlp/models/xlnet/sequence_classification.py
      - utils_nlp/dataset/url_utils.py
    Python lists are Rocq lists, Python ints are [Z], [None]-able arguments
    are [option]s, raised exceptions are the [Raise] branch of [result].
    The pretrained tokenizer, the neural model and the HTTP server are
    external collaborators: they appear as records of functions. *)

From Stdlib Require Import ZArith Lia Ascii String.
From Stdlib.Strings Require Import Byte.
From stdpp Require Import base list strings gmap.

Local Open Scope string_scope.
Local Open Scope list_scope.
Local Open Scope Z_scope.

(* ================================================================== *)
(** * Python primitives *)
(* ================================================================== *)

Module Py.

(** The exceptions that the embedded code can raise. *)
Inductive exn : Type :=
| NameError (name : string)
| UnboundLocalError (name : string)
| KeyError (key : string)
| KeyErrorInt (key : Z)
| ValueError (msg : string)
| TypeError (msg : string)
| ZeroDivisionError
| AssertionError
| IndexError (msg : string)
| FileNotFoundError (path : string)
| IOError (msg : string)
| ConnectionError (url : string).

Inductive result (A : Type) : Type :=
| Ok (a : A)
| Raise (e : exn).
Arguments Ok {A} a.
Arguments Raise {A} e.

Definition bind {A B} (m : result A) (k : A -> result B) : result B :=
  match m with
  | Ok a => k a
  | Raise e => Raise e
  end.

(** [traverse f l] runs [f] on the elements from left to right and stops
    at the first exception, as a list comprehension does. *)
Fixpoint traverse {A B} (f : A -> result B) (l : list A) : result (list B) :=
  match l with
  | [] => Ok []
  | x :: l' =>
      bind (f x) (fun y => bind (traverse f l') (fun ys => Ok (y :: ys)))
  end.

(** [len(x)] *)
Definition len {A} (x : list A) : Z := Z.of_nat (length x).

(** [x[:stop]], with Python's reading of a negative [stop]. *)
Definition slice_to {A} (x : list A) (stop : Z) : list A :=
  if stop <? 0 then take (Z.to_nat (len x + stop)) x
  else take (Z.to_nat stop) x.

(** [x[start:stop]] (no step). *)
Definition slice {A} (x : list A) (start stop : Z) : list A :=
  let norm i := if i <? 0 then Z.max 0 (len x + i) else Z.min i (len x) in
  let a := norm start in
  let b := norm stop in
  take (Z.to_nat (b - a)) (drop (Z.to_nat a) x).

(** [[v] * n]: the empty list when [n <= 0]. *)
Definition repeat_list {A} (v : A) (n : Z) : list A :=
  replicate (Z.to_nat n) v.

(** Iterating over a [str] yields its characters as one-character
    strings. *)
Fixpoint str_iter (s : string) : list string :=
  match s with
  | EmptyString => []
  | String c s' => String c EmptyString :: str_iter s'
  end.

(** The ASCII characters for which [str.isspace] holds. *)
Definition is_space (c : ascii) : bool :=
  let n := nat_of_ascii c in
  ((9 <=? n)%nat && (n <=? 13)%nat)
  || ((28 <=? n)%nat && (n <=? 32)%nat).

Definition flush (cur : string) : list string :=
  match cur with
  | EmptyString => []
  | _ => [cur]
  end.

Fixpoint split_from (cur : string) (s : string) : list string :=
  match s with
  | EmptyString => flush cur
  | String c s' =>
      if is_space c then flush cur ++ split_from EmptyString s'
      else split_from (cur +:+ String c EmptyString) s'
  end.

(** [s.split()]: the maximal runs of non-whitespace characters (of an
    ASCII text: a character above 127 is never taken for a space). *)
Definition split (s : string) : list string := split_from EmptyString s.

(** [s.split(sep)[-1]] for a one-character separator. *)
Fixpoint last_field_from (sep : ascii) (cur : string) (s : string) : string :=
  match s with
  | EmptyString => cur
  | String c s' =>
      if Ascii.eqb c sep then last_field_from sep EmptyString s'
      else last_field_from sep (cur +:+ String c EmptyString) s'
  end.

Definition last_field (sep : ascii) (s : string) : string :=
  last_field_from sep EmptyString s.

(** [int(a / b)] on ints: true division, then truncation towards zero. *)
Definition int_truediv (a b : Z) : result Z :=
  if b =? 0 then Raise ZeroDivisionError else Ok (Z.quot a b).

(** [range(0, stop, step)] as the list of its elements. *)
Fixpoint range_from (fuel : nat) (i stop step : Z) : list Z :=
  match fuel with
  | O => []
  | S fuel' =>
      if i <? stop then i :: range_from fuel' (i + step) stop step else []
  end.

Definition range0 (stop step : Z) : result (list Z) :=
  if step =? 0 then Raise (ValueError "range() arg 3 must not be zero")
  else if step <? 0 then Ok []
  else Ok (range_from (Z.to_nat stop) 0 stop step).

(** A number that is either an [int] or a [float] literal with an
    integral value ([0.0], [1.0]); [==] compares the values. *)
Inductive num : Type :=
| PyInt (z : Z)
| PyFloat (z : Z).

Definition num_val (n : num) : Z :=
  match n with
  | PyInt z => z
  | PyFloat z => z
  end.

Definition num_eqb (n : num) (z : Z) : bool := num_val n =? z.

(** Truth value of an optional list ([None] and [[]] are false). *)
Definition truthy {A} (o : option (list A)) : bool :=
  match o with
  | Some (_ :: _) => true
  | _ => false
  end.

(** A [dict] with [str] keys, in insertion order, keys distinct. *)
Definition dict (V : Type) : Type := list (string * V).

Fixpoint dict_get {V} (d : dict V) (k : string) : option V :=
  match d with
  | [] => None
  | (k', v) :: d' => if String.eqb k' k then Some v else dict_get d' k
  end.

End Py.

Import Py.

Notation "'do' x <- m ; k" := (Py.bind m (fun x => k))
  (at level 10, x name, m at level 100, k at level 200, only parsing).

(* ================================================================== *)
(** * utils_nlp/bert/common.py *)
(* ================================================================== *)

Module Common.

(** Max supported sequence length *)
Definition BERT_MAX_LEN : Z := 512.

(** The names bound at module level in common.py (imports, assignments,
    classes and functions), in order of binding. *)
Definition module_globals : list string :=
  [ "Enum"; "logging"; "BertTokenizer"; "torch"; "DataLoader";
    "RandomSampler"; "SequentialSampler"; "TensorDataset";
    "DistributedSampler"; "module_logger"; "BERT_MAX_LEN"; "Language";
    "Tokenizer"; "create_data_loader"; "BERTModelWrapper" ].

(** Reading a global name that no statement of the module binds (and that
    is no builtin) raises [NameError].  Writing to a log has no effect
    on the results, so a logging call is only this name lookup. *)
Definition global_name (name : string) : result unit :=
  if existsb (String.eqb name) module_globals then Ok tt
  else Raise (NameError name).

(** The pretrained WordPiece tokenizer ([self.tokenizer]): its
    [tokenize] on one word and its vocabulary, a dictionary from token
    to index. *)
Record BertTokenizer : Type := {
  tokenize : string -> list string;
  vocab : string -> option Z
}.

(** [BertTokenizer.convert_tokens_to_ids]: [self.vocab[token]] for each
    token. *)
Definition convert_tokens_to_ids (tk : BertTokenizer) (tokens : list string)
  : result (list Z) :=
  traverse (fun token =>
              match vocab tk token with
              | Some i => Ok i
              | None => Raise (KeyError token)
              end) tokens.

(** [Tokenizer.tokenize] *)
Definition Tokenizer_tokenize (tk : BertTokenizer) (text : list string)
  : list (list string) :=
  map (tokenize tk) text.

(** [Tokenizer.preprocess_classification_tokens] *)
Definition preprocess_classification_tokens
    (tk : BertTokenizer) (tokens : list (list string)) (max_len : Z)
  : result (list (list Z) * list (list Z)) :=
  do max_len <-
    (if BERT_MAX_LEN <? max_len
     then do _ <- global_name "module_logger"; Ok BERT_MAX_LEN
     else Ok max_len);
  (* truncate and add BERT sentence markers *)
  let tokens :=
    map (fun x => ["[CLS]"] ++ slice x 0 (max_len - 2) ++ ["[SEP]"]) tokens in
  (* convert tokens to indices *)
  do tokens <- traverse (convert_tokens_to_ids tk) tokens;
  (* pad sequence *)
  let tokens := map (fun x => x ++ repeat_list 0 (max_len - len x)) tokens in
  (* create input mask *)
  let input_mask := map (fun y => map (fun x => Z.min 1 x) y) tokens in
  Ok (tokens, input_mask).

(** A label as it is returned: the string given by the caller, or its
    integer under [label_map]. *)
Inductive label : Type :=
| LStr (s : string)
| LId (z : Z).

(** What [preprocess_ner_tokens] returns: a tuple of three or of four
    lists. *)
Inductive ner_tuple : Type :=
| Tuple3 (input_ids_all input_mask_all : list (list num))
         (trailing_token_mask_all : list (list bool))
| Tuple4 (input_ids_all input_mask_all : list (list num))
         (trailing_token_mask_all : list (list bool))
         (label_ids_all : list (list label)).

Definition arity (r : ner_tuple) : nat :=
  match r with
  | Tuple3 _ _ _ => 3
  | Tuple4 _ _ _ _ => 4
  end.

(** The inner loop over [enumerate(sub_words)]: the pieces of one word
    with the tag each one receives. *)
Definition word_pieces (tk : BertTokenizer) (trailing_piece_tag : string)
    (word tag : string) : list (string * string) :=
  imap (fun count sub_word =>
          (sub_word, if (0 <? count)%nat then trailing_piece_tag else tag))
       (tokenize tk word).

(** The loop over the pairs of a word and its tag. *)
Definition pairs_pieces (tk : BertTokenizer) (trailing_piece_tag : string)
    (pairs : list (string * string)) : list (string * string) :=
  flat_map (fun wt => word_pieces tk trailing_piece_tag wt.1 wt.2) pairs.

(** The loop over [zip(t.split(), t_labels)]. *)
Definition sentence_pieces (tk : BertTokenizer) (trailing_piece_tag : string)
    (t : string) (t_labels : list string) : list (string * string) :=
  pairs_pieces tk trailing_piece_tag (zip (split t) t_labels).

(** [label_map[label]] for each label when [label_map] is a non-empty
    dictionary, the labels themselves otherwise. *)
Definition map_label (label_map : option (dict Z)) (l : string)
  : result label :=
  if truthy label_map then
    match dict_get (default [] label_map) l with
    | Some i => Ok (LId i)
    | None => Raise (KeyError l)
    end
  else Ok (LStr l).

(** The body of the loop over [zip(text, labels)]. *)
Definition ner_row (tk : BertTokenizer) (max_len : Z)
    (label_map : option (dict Z)) (trailing_piece_tag : string)
    (t : string) (t_labels : list string)
  : result (list num * list num * list bool * list label) :=
  let pieces := sentence_pieces tk trailing_piece_tag t t_labels in
  let tokens := pieces.*1 in
  let new_labels := pieces.*2 in
  let tokens' :=
    if max_len <? len tokens then slice_to tokens max_len else tokens in
  let new_labels :=
    if max_len <? len tokens then slice_to new_labels max_len
    else new_labels in
  do input_ids <- convert_tokens_to_ids tk tokens';
  (* The mask has 1 for real tokens and 0 for padding tokens. *)
  let input_mask := repeat_list (PyFloat 1) (len input_ids) in
  (* Zero-pad up to the max sequence length. *)
  let padding := repeat_list (PyFloat 0) (max_len - len input_ids) in
  let label_padding := repeat_list "O" (max_len - len input_ids) in
  let input_ids' := map PyInt input_ids ++ padding in
  let input_mask := input_mask ++ padding in
  let new_labels := new_labels ++ label_padding in
  let trailing_token_mask :=
    map (fun label => negb (String.eqb label trailing_piece_tag))
        new_labels in
  do label_ids <- traverse (map_label label_map) new_labels;
  Ok (input_ids', input_mask, trailing_token_mask, label_ids).

(** [labels if labels is not None else ["O"] * len(text)]: the
    artificial list holds one string per sentence, and the inner [zip]
    iterates each of them character by character. *)
Definition default_labels (text : list string)
    (labels : option (list (list string))) : list (list string) :=
  match labels with
  | Some l => l
  | None => map str_iter (repeat_list "O" (len text))
  end.

(** The loop over [zip(text, labels)]. *)
Definition ner_rows (tk : BertTokenizer) (trailing_piece_tag : string)
    (text : list string) (max_len : Z)
    (labels : option (list (list string))) (label_map : option (dict Z))
  : result (list (list num * list num * list bool * list label)) :=
  traverse (fun tl => ner_row tk max_len label_map trailing_piece_tag
                              tl.1 tl.2)
           (zip text (default_labels text labels)).

(** [Tokenizer.preprocess_ner_tokens] *)
Definition preprocess_ner_tokens
    (tk : BertTokenizer) (text : list string) (max_len : Z)
    (labels : option (list (list string))) (label_map : option (dict Z))
    (trailing_piece_tag : string) : result ner_tuple :=
  do max_len <-
    (if BERT_MAX_LEN <? max_len
     then do _ <- global_name "logger"; Ok BERT_MAX_LEN
     else Ok max_len);
  (* Must be called before setting label to the default value *)
  let label_available := bool_decide (labels <> None) in
  (* create an artificial label list for creating trailing token mask *)
  do rows <- ner_rows tk trailing_piece_tag text max_len labels label_map;
  let input_ids_all := map (fun r => r.1.1.1) rows in
  let input_mask_all := map (fun r => r.1.1.2) rows in
  let trailing_token_mask_all := map (fun r => r.1.2) rows in
  let label_ids_all := map (fun r => r.2) rows in
  if label_available
  then Ok (Tuple4 input_ids_all input_mask_all trailing_token_mask_all
                  label_ids_all)
  else Ok (Tuple3 input_ids_all input_mask_all trailing_token_mask_all).

(** ** torch: tensors, datasets, samplers and loaders

    What the code uses of the library: a [long] tensor built from a list
    (of numbers, or of equally long lists of numbers), a dataset of
    tensors that agree on their first dimension, three sampler classes,
    and a loader that cuts the sampled rows into batches. *)

Inductive tensor : Type :=
| Tensor1 (v : list Z)
| Tensor2 (m : list (list Z)).

Definition size0 (t : tensor) : Z :=
  match t with
  | Tensor1 v => len v
  | Tensor2 m => len m
  end.

Definition rectangular {A} (rows : list (list A)) : bool :=
  match rows with
  | [] => true
  | r :: rows' => forallb (fun r' => (length r' =? length r)%nat) rows'
  end.

(** [torch.tensor(rows, dtype=torch.long)]; rows of different lengths
    are refused (the library's message is abridged). *)
Definition torch_tensor (rows : list (list num)) : result tensor :=
  if rectangular rows then Ok (Tensor2 (map (map num_val) rows))
  else Raise (ValueError "expected sequence of equal length at dim 1").

(** [TensorDataset] of some tensors asserts equal first dimensions. *)
Definition TensorDataset (tensors : list tensor) : result (list tensor) :=
  match tensors with
  | [] => Ok []
  | t :: ts =>
      if forallb (fun t' => size0 t =? size0 t') ts then Ok tensors
      else Raise AssertionError
  end.

Inductive sampler_class : Type :=
| RandomSampler
| SequentialSampler
| DistributedSampler.

Record DataLoader_t : Type := {
  dataset : list tensor;
  sampler : sampler_class;
  batch_size : Z
}.

(** [DataLoader(dataset, sampler=sampler, batch_size=batch_size)]; the
    batch sampler inside refuses a batch size that is not positive (the
    library's message is abridged). *)
Definition DataLoader (tensor_data : list tensor) (s : sampler_class)
    (batch_size : Z) : result DataLoader_t :=
  if batch_size <=? 0
  then Raise (ValueError "batch_size should be a positive integer value")
  else Ok {| dataset := tensor_data; sampler := s;
             batch_size := batch_size |}.

Definition dataset_len (tensor_data : list tensor) : Z :=
  match tensor_data with
  | [] => 0
  | t :: _ => size0 t
  end.

(** [len(dataloader)]: the number of batches, the last one possibly
    short ([drop_last] is left at [False]). *)
Definition DataLoader_len (dl : DataLoader_t) : Z :=
  (dataset_len (dataset dl) + batch_size dl - 1) / batch_size dl.

Definition tensor_slice (t : tensor) (start stop : Z) : tensor :=
  match t with
  | Tensor1 v => Tensor1 (slice v start stop)
  | Tensor2 m => Tensor2 (slice m start stop)
  end.

(** The batches of one pass of a loader whose sampler is sequential:
    rows [0..b), [b..2b), ... of every tensor of the dataset. *)
Definition sequential_batches (dl : DataLoader_t) : list (list tensor) :=
  let n := dataset_len (dataset dl) in
  map (fun i => map (fun t => tensor_slice t i (i + batch_size dl))
                    (dataset dl))
      (range_from (Z.to_nat n) 0 n (batch_size dl)).

Definition name_to_sampler_class : dict sampler_class :=
  [ ("random", RandomSampler);
    ("sequential", SequentialSampler);
    ("distributed", DistributedSampler) ].

Definition invalid_sample_method (sample_method : string) : string :=
  "Invalid sample_method value: " +:+ sample_method
  +:+ ", accepted values are: random, sequential, and distributed".

(** [create_data_loader] *)
Definition create_data_loader
    (input_ids input_mask : list (list num))
    (label_ids : option (list (list num)))
    (sample_method : string) (batch_size : Z) : result DataLoader_t :=
  do input_ids_tensor <- torch_tensor input_ids;
  do input_mask_tensor <- torch_tensor input_mask;
  do tensor_data <-
    (if truthy label_ids then
       do label_ids_tensor <- torch_tensor (default [] label_ids);
       TensorDataset [input_ids_tensor; input_mask_tensor; label_ids_tensor]
     else TensorDataset [input_ids_tensor; input_mask_tensor]);
  do sampler <-
    match dict_get name_to_sampler_class sample_method with
    | Some sampler_class => Ok sampler_class
    | None => Raise (ValueError (invalid_sample_method sample_method))
    end;
  DataLoader tensor_data sampler batch_size.

End Common.

Import Common.

(* ================================================================== *)
(** * utils_nlp/bert/token_classification.py *)
(* ================================================================== *)

Module BERTTokenClassifier.

(** The optimizer as [_get_optimizer] configures it.  [t_total] and
    [warmup] are [None] when the keyword is not passed. *)
Record BertAdam (Float : Type) : Type := {
  lr : Float;
  t_total : option Z;
  warmup : option Float
}.
Arguments lr {Float} _.
Arguments t_total {Float} _.
Arguments warmup {Float} _.

(** The result of [predict]: the returned predictions, the batch losses
    that were added to [eval_loss], and whether the evaluation loss was
    printed. *)
Record prediction (Loss : Type) : Type := {
  predictions : list (list Z);
  eval_loss : list Loss;
  loss_printed : bool
}.
Arguments predictions {Loss} _.
Arguments eval_loss {Loss} _.
Arguments loss_printed {Loss} _.

Section Classifier.

(** Learning rates and warm-up proportions are floats that the code
    only passes on. *)
Context {Float : Type}.
(** One position's vector of [num_labels] scores, and a loss value. *)
Context {Logit Loss : Type}.
(** [self.model(input_ids, attention_mask=input_mask)]: the logits,
    per row and per position. *)
Variable model : tensor -> tensor -> list (list Logit).
(** [np.argmax] over the scores of one position. *)
Variable argmax : Logit -> Z.
(** [nn.CrossEntropyLoss()] followed by [.mean().item()]. *)
Variable cross_entropy : list Logit -> list Z -> Loss.

(** [_get_optimizer]; the two parameter groups belong to the model and
    do not depend on the arguments. *)
Definition _get_optimizer (learning_rate : Float)
    (num_train_optimization_steps : Z) (warmup_proportion : option Float)
  : BertAdam Float :=
  match warmup_proportion with
  | None =>
      {| lr := learning_rate; t_total := None; warmup := None |}
  | Some w =>
      {| lr := learning_rate;
         t_total := Some num_train_optimization_steps;
         warmup := Some w |}
  end.

(** [fit], up to the optimizer it trains with; the epoch loop that
    follows runs the model on the batches. *)
Definition fit_optimizer
    (token_ids input_mask labels : list (list num))
    (num_epochs batch_size : Z) (learning_rate : Float)
    (warmup_proportion : option Float) : result (BertAdam Float) :=
  do train_dataloader <-
    create_data_loader token_ids input_mask (Some labels) "random"
                       batch_size;
  do steps_per_epoch <- int_truediv (len token_ids) batch_size;
  let num_train_optimization_steps := steps_per_epoch * num_epochs in
  Ok (_get_optimizer learning_rate num_train_optimization_steps
                     warmup_proportion).

(** [x.view(-1)] *)
Definition flat (t : tensor) : list Z :=
  match t with
  | Tensor1 v => v
  | Tensor2 m => concat m
  end.

(** [x[mask]] for a boolean mask of the same length. *)
Definition select {A} (x : list A) (mask : list bool) : result (list A) :=
  if (length x =? length mask)%nat
  then Ok (List.filter snd (zip x mask)).*1
  else Raise (IndexError "the shape of the mask does not match").

(** The local variables of the batch loop of [predict];
    [true_label_available] is unbound before the first batch. *)
Record predict_state : Type := {
  st_predictions : list (list Z);
  st_eval_loss : list Loss;
  st_true_label_available : option bool
}.

Definition predict_batch (labels : option (list (list num)))
    (st : predict_state) (batch : list tensor) : result predict_state :=
  do unpacked <-
    (if truthy labels then
       match batch with
       | [b_input_ids; b_input_mask; b_labels] =>
           Ok (b_input_ids, b_input_mask, Some b_labels)
       | _ => Raise (ValueError "wrong number of values to unpack")
       end
     else
       match batch with
       | [b_input_ids; b_input_mask] =>
           Ok (b_input_ids, b_input_mask, None)
       | _ => Raise (ValueError "wrong number of values to unpack")
       end);
  let b_input_ids := unpacked.1.1 in
  let b_input_mask := unpacked.1.2 in
  let logits := model b_input_ids b_input_mask in
  do eval_loss <-
    match unpacked.2 with
    | Some b_labels =>
        let active_loss := map (fun m => m =? 1) (flat b_input_mask) in
        do active_logits <- select (concat logits) active_loss;
        do active_labels <- select (flat b_labels) active_loss;
        Ok (st_eval_loss st ++ [cross_entropy active_logits active_labels])
    | None => Ok (st_eval_loss st)
    end;
  Ok {| st_predictions := st_predictions st ++ map (map argmax) logits;
        st_eval_loss := eval_loss;
        st_true_label_available := Some (truthy labels) |}.

Fixpoint predict_loop (labels : option (list (list num)))
    (st : predict_state) (batches : list (list tensor))
  : result predict_state :=
  match batches with
  | [] => Ok st
  | batch :: batches' =>
      do st' <- predict_batch labels st batch;
      predict_loop labels st' batches'
  end.

(** [BERTTokenClassifier.predict] *)
Definition predict (token_ids input_mask : list (list num))
    (labels : option (list (list num))) (batch_size : Z)
  : result (prediction Loss) :=
  do test_dataloader <-
    create_data_loader token_ids input_mask labels "sequential"
                       batch_size;
  do st <-
    predict_loop labels
      {| st_predictions := []; st_eval_loss := [];
         st_true_label_available := None |}
      (sequential_batches test_dataloader);
  match st_true_label_available st with
  | None => Raise (UnboundLocalError "true_label_available")
  | Some available =>
      Ok {| predictions := st_predictions st;
            eval_loss := st_eval_loss st;
            loss_printed := available |}
  end.

End Classifier.

(** [postprocess_token_labels] *)

(** [{v: k for k, v in label_map.items()}]: a later key replaces an
    earlier one with the same value. *)
Fixpoint reversed_label_map (label_map : dict Z) (v : Z) : option string :=
  match label_map with
  | [] => None
  | (k, v') :: label_map' =>
      match reversed_label_map label_map' v with
      | Some k' => Some k'
      | None => if v' =? v then Some k else None
      end
  end.

Definition original_label (label_map : option (dict Z)) (l_i : Z)
  : result label :=
  if truthy label_map then
    match reversed_label_map (default [] label_map) l_i with
    | Some k => Ok (LStr k)
    | None => Raise (KeyErrorInt l_i)
    end
  else Ok (LId l_i).

(** [[x for x, mask in zip(xs, mask_list) if mask == 1]] *)
Definition strip_padding {A} (xs : list A) (mask_list : list num) : list A :=
  (List.filter (fun xm => num_eqb xm.2 1) (zip xs mask_list)).*1.

(** [[label for label, mask in zip(label_list, mask_list) if mask]] *)
Definition keep_first_pieces {A} (label_list : list A)
    (mask_list : list bool) : list A :=
  (List.filter (fun lm => lm.2) (zip label_list mask_list)).*1.

Definition postprocess_token_labels
    (labels : list (list Z)) (input_mask : list (list num))
    (label_map : option (dict Z)) (remove_trailing_word_pieces : bool)
    (trailing_token_mask : option (list (list bool)))
  : result (list (list label)) :=
  do labels_org <- traverse (traverse (original_label label_map)) labels;
  let labels_org_no_padding :=
    map (fun lm => strip_padding lm.1 lm.2) (zip labels_org input_mask) in
  if remove_trailing_word_pieces && truthy trailing_token_mask then
    (* Remove the padded values in trailing_token_mask first *)
    let token_mask_no_padding :=
      map (fun tp => strip_padding tp.1 tp.2)
          (zip (default [] trailing_token_mask) input_mask) in
    let labels_no_trailing_pieces :=
      map (fun lm => keep_first_pieces lm.1 lm.2)
          (zip labels_org_no_padding token_mask_no_padding) in
    Ok labels_no_trailing_pieces
  else Ok labels_org_no_padding.

End BERTTokenClassifier.

(* ================================================================== *)
(** * utils_nlp/models/xlnet/sequence_classification.py *)
(* ================================================================== *)

Module XLNetSequenceClassifier.

(** The fields of the classifier that [fit] reads. *)
Record t : Type := {
  num_epochs : Z;
  batch_size : Z;
  warmup_steps : Z
}.

Record WarmupLinearSchedule : Type := {
  schedule_warmup_steps : Z;
  schedule_t_total : Z
}.

(** What [predict] returns: the classes, or the named tuple of the
    classes and the probabilities. *)
Inductive predictions (Probs : Type) : Type :=
| Classes (classes : list Z)
| Predictions (classes : list Z) (probabilities : list Probs).
Arguments Classes {Probs} classes.
Arguments Predictions {Probs} classes probabilities.

(** [fit], up to the learning-rate schedule it trains with. *)
Definition fit_schedule (self : t)
    (token_ids input_mask : list (list num)) (labels : list Z)
    (token_type_ids : option (list (list num)))
  : result WarmupLinearSchedule :=
  do token_ids_tensor <- torch_tensor token_ids;
  do input_mask_tensor <- torch_tensor input_mask;
  let labels_tensor := Tensor1 labels in
  do train_dataset <-
    (if truthy token_type_ids then
       do token_type_ids_tensor <- torch_tensor (default [] token_type_ids);
       TensorDataset [token_ids_tensor; input_mask_tensor;
                      token_type_ids_tensor; labels_tensor]
     else
       TensorDataset [token_ids_tensor; input_mask_tensor; labels_tensor]);
  let train_sampler := RandomSampler in
  do train_dataloader <-
    DataLoader train_dataset train_sampler (batch_size self);
  let num_examples := len token_ids in
  let num_batches := DataLoader_len train_dataloader in
  let num_train_optimization_steps := num_batches * num_epochs self in
  Ok {| schedule_warmup_steps := warmup_steps self;
        schedule_t_total := num_train_optimization_steps |}.

Section Classifier.

(** The scores of one row, and a probability vector. *)
Context {Logit Probs : Type}.
(** [self.model(input_ids, token_type_ids, attention_mask)[0]]: one
    score vector per row of the batch. *)
Variable model : tensor -> tensor -> tensor -> list Logit.
(** [argmax] and softmax over the scores of one row. *)
Variable argmax : Logit -> Z.
Variable softmax : Logit -> Probs.

(** [np.concatenate] refuses an empty list of arrays. *)
Definition np_concatenate {A} (arrays : list (list A)) : result (list A) :=
  match arrays with
  | [] => Raise (ValueError "need at least one array to concatenate")
  | _ => Ok (concat arrays)
  end.

(** [token_type_ids[start:end]]: [None] is not subscriptable. *)
Definition subscript_slice (token_type_ids : option (list (list num)))
    (start stop : Z) : result (list (list num)) :=
  match token_type_ids with
  | Some rows => Ok (slice rows start stop)
  | None => Raise (TypeError "'NoneType' object is not subscriptable")
  end.

Definition predict_batch
    (token_ids input_mask : list (list num))
    (token_type_ids : option (list (list num))) (batch_size : Z)
    (i : Z) : result (list Logit) :=
  let start := i in
  let stop := start + batch_size in
  do x_batch <- torch_tensor (slice token_ids start stop);
  do mask_batch <- torch_tensor (slice input_mask start stop);
  do token_type_rows <- subscript_slice token_type_ids start stop;
  do token_type_ids_batch <- torch_tensor token_type_rows;
  Ok (model x_batch token_type_ids_batch mask_batch).

(** [XLNetSequenceClassifier.predict] *)
Definition predict
    (token_ids input_mask : list (list num))
    (token_type_ids : option (list (list num))) (batch_size : Z)
    (probabilities : bool) : result (predictions Probs) :=
  do starts <- range0 (len token_ids) batch_size;
  do preds <-
    traverse (predict_batch token_ids input_mask token_type_ids batch_size)
             starts;
  do preds <- np_concatenate preds;
  if probabilities
  then Ok (Predictions (map argmax preds) (map softmax preds))
  else Ok (Classes (map argmax preds)).

End Classifier.

End XLNetSequenceClassifier.

(* ================================================================== *)
(** * utils_nlp/dataset/url_utils.py *)
(* ================================================================== *)

Module UrlUtils.

(** The files of the file system, by path, with their contents.
    Directories are taken to exist and to be writable. *)
Abbreviation filesystem := (gmap string (list byte)).

(** The response to a GET request: the body as the blocks that
    [iter_content(block_size)] yields. *)
Record response : Type := {
  content_length : option Z;
  iter_content : Z -> list (list byte)
}.

(** [os.path.join(a, b)] on POSIX. *)
Definition path_join (a b : string) : string :=
  if String.prefix "/" b then b
  else if (String.length a =? 0)%nat then b
  else if String.eqb (substring (String.length a - 1) 1 a) "/" then a +:+ b
  else a +:+ "/" +:+ b.

(** [file.write(data)] for each block, on a file opened with ["wb"]. *)
Definition write_blocks (fs : filesystem) (filepath : string)
    (blocks : list (list byte)) : filesystem :=
  fold_left (fun fs data =>
               <[filepath := default [] (fs !! filepath) ++ data]> fs)
            blocks (<[filepath := []]> fs).

(** The first half of [maybe_download]: fetch the file unless it is
    there. *)
Definition fetch (get : string -> result response) (url filepath : string)
    (fs : filesystem) : result filesystem :=
  match fs !! filepath with
  | None =>
      do r <- get url;
      let block_size := 1024 in
      Ok (write_blocks fs filepath (iter_content r block_size))
  | Some _ => Ok fs
  end.

(** The path of the local file: [filename] defaults to the last field of
    the URL. *)
Definition target_path (url : string) (filename : option string)
    (work_directory : string) : string :=
  let filename :=
    match filename with
    | None => last_field "/"%char url
    | Some f => f
    end in
  path_join work_directory filename.

(** [maybe_download]: the file system after the call and its outcome. *)
Definition maybe_download (get : string -> result response)
    (url : string) (filename : option string) (work_directory : string)
    (expected_bytes : option Z) (fs : filesystem)
  : filesystem * result string :=
  let filepath := target_path url filename work_directory in
  match fetch get url filepath fs with
  | Raise e => (fs, Raise e)
  | Ok fs =>
      match expected_bytes with
      | Some expected =>
          match fs !! filepath with
          | None => (fs, Raise (FileNotFoundError filepath))
          | Some content =>
              (* statinfo.st_size != expected_bytes *)
              if negb (len content =? expected)
              then (delete filepath fs,
                    Raise (IOError ("Failed to verify " +:+ filepath)))
              else (fs, Ok filepath)
          end
      | None => (fs, Ok filepath)
      end
  end.

End UrlUtils.

Import BERTTokenClassifier.
Import UrlUtils.

(* ================================================================== *)
(** * Fixtures: a small tokenizer *)
(* ================================================================== *)

Module Fixtures.

(** A word longer than four characters is split after its fourth
    character, the rest becoming a [##] piece. *)
Definition toy_tokenize (w : string) : list string :=
  if (4 <? String.length w)%nat
  then [substring 0 4 w; "##" +:+ substring 4 (String.length w - 4) w]
  else [w].

Definition toy_vocab (t : string) : option Z :=
  if String.eqb t "[PAD]" then Some 0
  else if String.eqb t "[CLS]" then Some 101
  else if String.eqb t "[SEP]" then Some 102
  else Some (1000 + Z.of_nat (String.length t)).

Definition toy : BertTokenizer :=
  {| tokenize := toy_tokenize; vocab := toy_vocab |}.

(** A server with one file of three bytes, sent in two blocks. *)
Definition toy_get (url : string) : result response :=
  if String.eqb url "http://host/data/file.bin"
  then Ok {| content_length := Some 3;
             iter_content := fun _ => [[x01; x02]; [x03]] |}
  else Raise (ConnectionError url).

(** A model whose scores are the ids themselves. *)
Definition toy_model (input_ids attention_mask : tensor) : list (list Z) :=
  match input_ids with
  | Tensor1 v => [v]
  | Tensor2 m => m
  end.

Definition ten_rows : list (list num) := replicate 10 [PyInt 1; PyInt 2].

End Fixtures.

Import Fixtures.

(* ================================================================== *)
(** * Conditions on the inputs and reference functions *)
(* ================================================================== *)

(** The tokenizer only produces tokens of its vocabulary (an unknown word
    becomes the unknown-word token). *)
Definition tokenizer_closed (tk : BertTokenizer) : Prop :=
  forall w, Forall (fun t => is_Some (vocab tk t)) (tokenize tk w).

(** A non-empty [label_map] has an entry for each of the given labels. *)
Definition label_map_covers (label_map : option (dict Z)) (ls : list string)
  : Prop :=
  truthy label_map = true ->
  Forall (fun l => is_Some (dict_get (default [] label_map) l)) ls.

(** The subword fragments of a list of words, in order. *)
Definition fragments (tk : BertTokenizer) (words : list string) : list string :=
  flat_map (tokenize tk) words.

(** One label per word, the one at the word's first fragment: [counts]
    gives the number of fragments of each word and [row] one label per
    fragment. *)
Fixpoint first_pieces {A} (counts : list nat) (row : list A) : list A :=
  match counts with
  | [] => []
  | k :: counts' => take 1 row ++ first_pieces counts' (drop k row)
  end.

(** The id, mask and label lists can be made into one dataset: each is
    rectangular and they have the same number of rows (labels that are
    absent or empty are left out). *)
Definition rows_wellformed (input_ids input_mask : list (list num))
    (label_ids : option (list (list num))) : Prop :=
  rectangular input_ids = true
  /\ rectangular input_mask = true
  /\ len input_mask = len input_ids
  /\ forall l, label_ids = Some l -> l <> [] ->
       rectangular l = true /\ len l = len input_ids.

(** The tensors of the dataset that [create_data_loader] builds. *)
Definition dataset_of (input_ids input_mask : list (list num))
    (label_ids : option (list (list num))) : list tensor :=
  [Tensor2 (map (map num_val) input_ids);
   Tensor2 (map (map num_val) input_mask)]
  ++ (if truthy label_ids
      then [Tensor2 (map (map num_val) (default [] label_ids))]
      else []).

Definition accepted_sample_methods : list string :=
  ["random"; "sequential"; "distributed"].

(** The message [msg] contains the text [s]. *)
Definition mentions (msg s : string) : Prop :=
  exists pre post, msg = pre +:+ s +:+ post.

(** The quotient rounded up. *)
Definition ceil_div (a b : Z) : Z := - ((- a) / b).

(** The number of fragments of each word. *)
Definition fragment_counts (tk : BertTokenizer) (words : list string)
  : list nat :=
  map (fun w => length (tokenize tk w)) words.

(** A sentence with one label per word, none of them the trailing tag,
    whose words all have at least one fragment and whose fragments fit in
    [max_len]. *)
Definition labelled_sentence (tk : BertTokenizer) (tag : string)
    (max_len : Z) (t : string) (t_labels : list string) : Prop :=
  length (split t) = length t_labels
  /\ Forall (fun l => l <> tag) t_labels
  /\ Forall (fun w => tokenize tk w <> []) (split t)
  /\ Z.of_nat (length (fragments tk (split t))) <= max_len.

(* ================================================================== *)
(** * Properties of the primitives *)
(* ================================================================== *)

Section Traverse.

Context {A B : Type} (f : A -> result B).

Lemma traverse_Ok_Forall2 (l : list A) (ys : list B) :
  traverse f l = Ok ys <-> Forall2 (fun x y => f x = Ok y) l ys.
Proof.
  revert ys. induction l as [|x l IH]; intros ys; simpl.
  - split.
    + intros [= <-]. constructor.
    + intros H. inversion H. reflexivity.
  - split.
    + destruct (f x) as [y|e] eqn:Hx; simpl; [|discriminate].
      destruct (traverse f l) as [ys'|e] eqn:Hl; simpl; [|discriminate].
      intros [= <-]. constructor; [assumption|]. apply IH. reflexivity.
    + intros H. inversion H as [|x' y l' ys' Hx Hl]; subst.
      rewrite Hx. simpl. apply IH in Hl. rewrite Hl. reflexivity.
Qed.

Lemma traverse_length (l : list A) (ys : list B) :
  traverse f l = Ok ys -> length ys = length l.
Proof.
  intros H. apply traverse_Ok_Forall2 in H.
  symmetry. eapply Forall2_length, H.
Qed.

Lemma traverse_total (l : list A) :
  Forall (fun x => exists y, f x = Ok y) l -> exists ys, traverse f l = Ok ys.
Proof.
  induction 1 as [|x l [y Hy] _ [ys Hys]]; simpl.
  - eexists. reflexivity.
  - rewrite Hy, Hys. simpl. eexists. reflexivity.
Qed.

Lemma traverse_lookup (l : list A) (ys : list B) (k : nat) (x : A) :
  traverse f l = Ok ys -> l !! k = Some x ->
  exists y, ys !! k = Some y /\ f x = Ok y.
Proof.
  intros H Hk. apply traverse_Ok_Forall2 in H.
  destruct (Forall2_lookup_l _ _ _ _ _ H Hk) as (y & Hy & Hf). eauto.
Qed.

End Traverse.

Lemma traverse_pure {A B} (g : A -> B) (l : list A) :
  traverse (fun x => Ok (g x)) l = Ok (map g l).
Proof.
  induction l as [|x l IH]; simpl; [reflexivity|]. rewrite IH. reflexivity.
Qed.

Lemma len_nonneg {A} (x : list A) : 0 <= len x.
Proof. unfold len. lia. Qed.

Lemma len_app {A} (x y : list A) : len (x ++ y) = len x + len y.
Proof. unfold len. rewrite length_app. lia. Qed.

Lemma len_repeat_list {A} (v : A) (n : Z) : len (repeat_list v n) = Z.max 0 n.
Proof. unfold len, repeat_list. rewrite length_replicate. lia. Qed.

Lemma slice_from_0 {A} (x : list A) (stop : Z) :
  0 <= stop -> slice x 0 stop = take (Z.to_nat stop) x.
Proof.
  intros Hs. unfold slice.
  pose proof (len_nonneg x) as Hx.
  replace (0 <? 0) with false by reflexivity.
  destruct (stop <? 0) eqn:E; [lia|].
  rewrite (Z.min_l 0) by lia. change (Z.to_nat 0) with 0%nat.
  rewrite drop_0, Z.sub_0_r.
  unfold len in *.
  destruct (Z.le_ge_cases stop (Z.of_nat (length x))).
  - rewrite Z.min_l by lia. reflexivity.
  - rewrite Z.min_r by lia. rewrite Nat2Z.id.
    rewrite !take_ge by lia. reflexivity.
Qed.

Lemma traverse_map {A B C} (f : B -> result C) (g : A -> B) (l : list A) :
  traverse f (map g l) = traverse (fun x => f (g x)) l.
Proof.
  induction l as [|x l IH]; simpl; [reflexivity|]. rewrite IH. reflexivity.
Qed.

(* ================================================================== *)
(** * The tokenizer adapter: sequence classification *)
(* ================================================================== *)

Section Classification.

Variable tk : BertTokenizer.

Lemma convert_tokens_to_ids_length (tokens : list string) (ids : list Z) :
  convert_tokens_to_ids tk tokens = Ok ids -> len ids = len tokens.
Proof.
  intros H. apply traverse_length in H. unfold len. rewrite H. reflexivity.
Qed.

Lemma convert_tokens_to_ids_known (tokens : list string) :
  Forall (fun t => exists i, vocab tk t = Some i /\ 0 <= i) tokens ->
  exists ids, convert_tokens_to_ids tk tokens = Ok ids
              /\ Forall (fun i => 0 <= i) ids.
Proof.
  induction 1 as [|t tokens (i & Hi & Hpos) _ (ids & Hids & Hall)].
  - exists []. split; [reflexivity|constructor].
  - exists (i :: ids). split; [|constructor; assumption].
    unfold convert_tokens_to_ids in *. simpl. rewrite Hi. simpl.
    rewrite Hids. reflexivity.
Qed.

Lemma min_1_nonneg (id : Z) :
  0 <= id -> Z.min 1 id = if id =? 0 then 0 else 1.
Proof. intros H. destruct (Z.eqb_spec id 0); lia. Qed.

(** C1, as amended: for [2 <= max_len <= 512] and token sequences
    shorter than [max_len] whose tokens the vocabulary knows (with
    indices that are not negative), [preprocess_classification_tokens]
    returns, for each input, the ids of the marker-wrapped content (the
    sequence cut to [max_len - 2] tokens between the two markers)
    followed by zeros up to exactly [max_len] positions, and a mask that
    is [min(1, id)] at each position: 1 where the id is not zero and 0
    where it is. *)
Theorem C1_classification_pads_and_masks
    (tokens : list (list string)) (max_len : Z) :
  2 <= max_len <= BERT_MAX_LEN ->
  Forall (fun x => len x < max_len) tokens ->
  Forall (fun t => exists i, vocab tk t = Some i /\ 0 <= i)
         ("[CLS]" :: "[SEP]" :: concat tokens) ->
  exists ids mask,
    preprocess_classification_tokens tk tokens max_len = Ok (ids, mask)
    /\ Forall2 (fun x row =>
         exists real,
           convert_tokens_to_ids tk
             (["[CLS]"] ++ take (Z.to_nat (max_len - 2)) x ++ ["[SEP]"])
             = Ok real
           /\ row = real ++ replicate (Z.to_nat (max_len - len real)) 0
           /\ len row = max_len
           /\ forall p : nat,
                (length real <= p)%nat -> Z.of_nat p < max_len ->
                row !! p = Some 0)
         tokens ids
    /\ Forall2 (fun row m =>
         m = map (fun id => Z.min 1 id) row
         /\ forall (p : nat) (id : Z),
              row !! p = Some id ->
              m !! p = Some (if id =? 0 then 0 else 1))
         ids mask.
Proof.
  intros Hmax Hshort Hvocab.
  unfold preprocess_classification_tokens.
  destruct (BERT_MAX_LEN <? max_len) eqn:E; [lia|]. cbn [bind].
  rewrite traverse_map.
  inversion Hvocab as [|? ? Hcls Hv']; subst.
  inversion Hv' as [|? ? Hsep Htoks]; subst. clear Hvocab Hv'.
  assert (Hrows : exists rows,
    traverse (fun x => convert_tokens_to_ids tk
       (["[CLS]"] ++ slice x 0 (max_len - 2) ++ ["[SEP]"])) tokens = Ok rows
    /\ Forall (Forall (fun i => 0 <= i)) rows).
  { clear Hshort. induction tokens as [|x tokens IH].
    - exists []. split; [reflexivity|constructor].
    - simpl in Htoks. apply Forall_app in Htoks as [Hx Htoks].
      destruct (IH Htoks) as (rows & Hrows & Hpos).
      destruct (convert_tokens_to_ids_known
                  (["[CLS]"] ++ slice x 0 (max_len - 2) ++ ["[SEP]"]))
        as (r & Hr & Hrpos).
      { rewrite slice_from_0 by lia.
        apply Forall_app. split; [repeat constructor; assumption|].
        apply Forall_app. split; [|repeat constructor; assumption].
        apply Forall_take. assumption. }
      exists (r :: rows). split; [|constructor; assumption].
      cbn [traverse]. rewrite Hr. cbn [bind]. rewrite Hrows. reflexivity. }
  destruct Hrows as (rows & Hrows & Hpos). cbv beta. rewrite Hrows. cbn [bind].
  eexists _, _. split; [reflexivity|].
  split.
  - apply Forall2_fmap_r.
    apply traverse_Ok_Forall2 in Hrows.
    clear Hpos Htoks.
    induction Hrows as [|x real tokens rows Hx _ IH]; [constructor|].
    inversion Hshort as [|? ? Hlen Hshort']; subst.
    constructor; [|apply IH; assumption].
    exists real. rewrite slice_from_0 in Hx by lia.
    split; [exact Hx|].
    pose proof (convert_tokens_to_ids_length _ _ Hx) as Hl.
    rewrite !len_app in Hl. unfold len in Hl, Hlen. rewrite length_take in Hl.
    cbn [length] in Hl.
    split; [reflexivity|]. split.
    + rewrite len_app, len_repeat_list. unfold len. lia.
    + intros p Hp Hlt. unfold repeat_list.
      rewrite lookup_app_r by lia.
      apply lookup_replicate_2. unfold len. lia.
  - apply Forall2_fmap_r. apply Forall_Forall2_diag.
    apply Forall_fmap.
    eapply Forall_impl; [exact Hpos|]. intros row Hrow. cbn.
    split; [reflexivity|].
    intros p id Hp. rewrite list_lookup_fmap, Hp. cbn.
    f_equal. apply min_1_nonneg.
    apply lookup_app_Some in Hp as [Hp|[_ Hp]].
    + eapply Forall_lookup_1 in Hrow; [exact Hrow|exact Hp].
    + apply lookup_replicate in Hp as [-> _]. lia.
Qed.

End Classification.


Lemma C1_witness :
  exists ids mask,
    preprocess_classification_tokens toy [["play"; "##ing"]; ["a"]] 5
      = Ok (ids, mask)
    /\ Forall (fun row => len row = 5) ids.
Proof.
  destruct (C1_classification_pads_and_masks toy [["play"; "##ing"]; ["a"]] 5)
    as (ids & mask & Hcall & Hrows & _).
  - unfold BERT_MAX_LEN. lia.
  - repeat constructor.
  - repeat constructor; eexists; (split; [reflexivity|lia]).
  - exists ids, mask. split; [exact Hcall|].
    clear Hcall. induction Hrows as [|x row xs rows (real & _ & _ & Hlen & _)];
      constructor; assumption.
Defined.

(** C1 as stated fails at [max_len = 1]: the empty token sequence is
    shorter than [max_len], and the returned row holds the two markers,
    so it has two ids, not one. *)
Lemma C1_counterexample :
  1 <= BERT_MAX_LEN
  /\ Forall (fun x : list string => len x < 1) [[]]
  /\ preprocess_classification_tokens toy [[]] 1 = Ok ([[101; 102]], [[1; 1]])
  /\ len [101; 102] <> 1.
Proof.
  split; [unfold BERT_MAX_LEN; lia|].
  split; [repeat constructor|].
  split; [reflexivity|]. unfold len. simpl. lia.
Qed.

Example classification_small :
  preprocess_classification_tokens toy [["play"; "##ing"]; ["a"]] 5
  = Ok ([[101; 1004; 1005; 102; 0]; [101; 1001; 102; 0; 0]],
        [[1; 1; 1; 1; 0]; [1; 1; 1; 0; 0]]).
Proof. reflexivity. Qed.

(** A sequence of [max_len - 1] tokens loses its last token. *)
Example classification_truncates :
  preprocess_classification_tokens toy [["a"; "bb"; "ccc"]] 4
  = Ok ([[101; 1001; 1002; 102]], [[1; 1; 1; 1]]).
Proof. reflexivity. Qed.

(* ================================================================== *)
(** * The tokenizer adapter: token classification *)
(* ================================================================== *)

Section Ner.
Variable tk : BertTokenizer.
Variable tag : string.

Lemma word_pieces_lookup (w l : string) (i : nat) :
  word_pieces tk tag w l !! i
  = (fun s => (s, match i with O => l | S _ => tag end)) <$> tokenize tk w !! i.
Proof.
  unfold word_pieces. rewrite list_lookup_imap.
  destruct (tokenize tk w !! i); [|reflexivity]. simpl.
  destruct i; reflexivity.
Qed.

Lemma word_pieces_length (w l : string) :
  length (word_pieces tk tag w l) = length (tokenize tk w).
Proof. unfold word_pieces. apply length_imap. Qed.

Lemma word_pieces_tokens (w l : string) :
  (word_pieces tk tag w l).*1 = tokenize tk w.
Proof.
  apply list_eq. intros i. rewrite list_lookup_fmap, word_pieces_lookup.
  destruct (tokenize tk w !! i); reflexivity.
Qed.

Lemma pairs_pieces_tokens (ps : list (string * string)) :
  (pairs_pieces tk tag ps).*1 = fragments tk ps.*1.
Proof.
  induction ps as [|[w l] ps IH]; [reflexivity|].
  unfold pairs_pieces, fragments in *. simpl.
  rewrite fmap_app, word_pieces_tokens, IH. reflexivity.
Qed.

Lemma pairs_pieces_length (ps : list (string * string)) :
  length (pairs_pieces tk tag ps) = length (fragments tk ps.*1).
Proof. rewrite <- pairs_pieces_tokens, length_fmap. reflexivity. Qed.

Lemma pairs_pieces_lookup (before after : list (string * string))
    (w l : string) (i : nat) :
  (i < length (tokenize tk w))%nat ->
  (pairs_pieces tk tag (before ++ (w, l) :: after)).*2
    !! (length (fragments tk before.*1) + i)%nat
  = Some (match i with O => l | S _ => tag end).
Proof.
  intros Hi. unfold pairs_pieces. rewrite flat_map_app. simpl.
  rewrite !fmap_app.
  rewrite lookup_app_r; rewrite length_fmap;
    fold (pairs_pieces tk tag before); rewrite pairs_pieces_length; [|lia].
  replace (length (fragments tk before.*1) + i
           - length (fragments tk before.*1))%nat with i by lia.
  rewrite lookup_app_l by (rewrite length_fmap, word_pieces_length; lia).
  rewrite list_lookup_fmap, word_pieces_lookup.
  destruct (lookup_lt_is_Some_2 _ _ Hi) as [s ->]. reflexivity.
Qed.

Lemma slice_to_take {A} (x : list A) (max_len : Z) :
  0 <= max_len ->
  (if max_len <? len x then slice_to x max_len else x)
  = take (Z.to_nat max_len) x.
Proof.
  intros H. unfold slice_to, len.
  destruct (Z.ltb_spec max_len (Z.of_nat (length x))).
  - destruct (Z.ltb_spec max_len 0); [lia|reflexivity].
  - rewrite take_ge by lia. reflexivity.
Qed.

Lemma slice_to_take' {A B} (x : list A) (y : list B) (max_len : Z) :
  0 <= max_len -> length x = length y ->
  (if max_len <? len y then slice_to x max_len else x)
  = take (Z.to_nat max_len) x.
Proof.
  intros H Hl. rewrite <- (slice_to_take x) by assumption.
  unfold len. rewrite Hl. reflexivity.
Qed.

(** What the body of the sentence loop returns, when it returns. *)
Lemma ner_row_Ok (max_len : Z) (label_map : option (dict Z))
    (t : string) (t_labels : list string)
    (ids mask : list num) (tm : list bool) (lab : list label) :
  0 <= max_len ->
  ner_row tk max_len label_map tag t t_labels = Ok (ids, mask, tm, lab) ->
  let pieces := sentence_pieces tk tag t t_labels in
  let m := Z.to_nat max_len in
  let n := length pieces in
  let new_labels := take m pieces.*2 ++ replicate (m - n) "O" in
  mask = replicate (m `min` n) (PyFloat 1) ++ replicate (m - n) (PyFloat 0)
  /\ length ids = m
  /\ tm = map (fun label => negb (String.eqb label tag)) new_labels
  /\ traverse (map_label label_map) new_labels = Ok lab.
Proof.
  intros Hmax. unfold ner_row.
  rewrite slice_to_take by assumption.
  rewrite (slice_to_take' (sentence_pieces tk tag t t_labels).*2)
    by (rewrite ?length_fmap; auto).
  destruct (convert_tokens_to_ids tk _) as [raw|e] eqn:Hraw; [|discriminate].
  cbn [bind].
  apply traverse_length in Hraw.
  rewrite length_take, length_fmap in Hraw.
  unfold repeat_list, len. rewrite Hraw.
  replace (Z.to_nat (max_len - Z.of_nat
             (Z.to_nat max_len `min` length (sentence_pieces tk tag t t_labels))))
    with (Z.to_nat max_len - length (sentence_pieces tk tag t t_labels))%nat
    by lia.
  rewrite Nat2Z.id.
  destruct (traverse (map_label label_map) _) as [lab'|e] eqn:Hlab;
    [|discriminate].
  cbn [bind]. intros [= <- <- <- <-].
  split; [reflexivity|]. split.
  - rewrite length_app, length_fmap, length_replicate. lia.
  - split; reflexivity.
Qed.

(** The labels of the pieces are the trailing tag or one of the labels
    given for the sentence. *)
Lemma pairs_pieces_labels (ps : list (string * string)) :
  Forall (fun l => l = tag \/ l ∈ ps.*2) (pairs_pieces tk tag ps).*2.
Proof.
  apply Forall_forall. intros l Hl.
  apply list_elem_of_fmap in Hl as ([s l'] & -> & Hin).
  apply list_elem_of_In, in_flat_map in Hin as ([w l0] & Hw & Hin).
  apply list_elem_of_In, list_elem_of_lookup in Hin as [i Hi].
  rewrite word_pieces_lookup in Hi.
  cbn [fst snd] in Hi.
  destruct (tokenize tk w !! i); simpl in Hi; [|discriminate].
  injection Hi as <- <-. simpl.
  destruct i; [right|left; reflexivity].
  apply list_elem_of_fmap. exists (w, l0). split; [reflexivity|].
  apply list_elem_of_In. exact Hw.
Qed.

Lemma map_label_covered (label_map : option (dict Z)) (ls : list string) :
  label_map_covers label_map ls ->
  Forall (fun l => exists v, map_label label_map l = Ok v) ls.
Proof.
  intros Hc. unfold map_label. unfold label_map_covers in Hc.
  destruct (truthy label_map).
  - eapply Forall_impl; [apply Hc; reflexivity|].
    intros l [v Hv]. cbn beta. rewrite Hv. eauto.
  - apply Forall_forall. eauto.
Qed.

(** The body of the sentence loop returns when the tokens are known
    and the labels are covered. *)
Lemma ner_row_returns (max_len : Z) (label_map : option (dict Z))
    (t : string) (t_labels : list string) :
  tokenizer_closed tk ->
  label_map_covers label_map (tag :: "O" :: t_labels) ->
  exists row, ner_row tk max_len label_map tag t t_labels = Ok row.
Proof.
  intros Hclosed Hcov. unfold ner_row.
  set (pieces := sentence_pieces tk tag t t_labels).
  set (toks := if max_len <? len pieces.*1 then _ else _).
  set (labs := if max_len <? len pieces.*1 then _ else _).
  assert (Htoks : Forall (fun t => is_Some (vocab tk t)) toks).
  { assert (Hall : Forall (fun t => is_Some (vocab tk t)) pieces.*1).
    { unfold pieces, sentence_pieces. rewrite pairs_pieces_tokens.
      apply Forall_forall. intros x Hx.
      apply list_elem_of_In, in_flat_map in Hx as (w & _ & Hx).
      eapply Forall_forall in Hclosed; [exact Hclosed|].
      apply list_elem_of_In. exact Hx. }
    unfold toks, slice_to.
    destruct (max_len <? len pieces.*1); [|exact Hall].
    destruct (max_len <? 0); apply Forall_take; exact Hall. }
  assert (Hraw : exists raw, convert_tokens_to_ids tk toks = Ok raw).
  { apply traverse_total. eapply Forall_impl; [exact Htoks|].
    intros x [i Hi]. cbn beta. rewrite Hi. eauto. }
  destruct Hraw as [raw ->]. cbn [bind].
  apply map_label_covered in Hcov.
  inversion Hcov as [|? ? Htag Hcov']; subst.
  inversion Hcov' as [|? ? HO Hlabs]; subst.
  assert (Hls : Forall (fun l => exists v, map_label label_map l = Ok v)
                       (labs ++ repeat_list "O" (max_len - len raw))).
  { apply Forall_app. split.
    - assert (Hall : Forall (fun l => exists v, map_label label_map l = Ok v)
                            pieces.*2).
      { eapply Forall_impl; [apply pairs_pieces_labels|].
        intros l [->|Hl]; [exact Htag|].
        eapply Forall_forall in Hlabs; [exact Hlabs|].
        apply list_elem_of_fmap in Hl as ([w l'] & -> & Hin).
        apply elem_of_zip_r in Hin. exact Hin. }
      unfold labs, slice_to.
      destruct (max_len <? len pieces.*1); [|exact Hall].
      destruct (max_len <? 0); apply Forall_take; exact Hall.
    - unfold repeat_list. apply Forall_replicate. exact HO. }
  apply traverse_total in Hls as [lab ->]. cbn [bind]. eauto.
Qed.

(** Below the ceiling the call is the sentence loop followed by the
    choice of the tuple. *)
Lemma preprocess_ner_tokens_unfold (text : list string) (max_len : Z)
    (labels : option (list (list string))) (label_map : option (dict Z)) :
  max_len <= BERT_MAX_LEN ->
  preprocess_ner_tokens tk text max_len labels label_map tag
  = bind (ner_rows tk tag text max_len labels label_map)
      (fun rows =>
         match labels with
         | Some _ =>
             Ok (Tuple4 (map (fun r => r.1.1.1) rows)
                        (map (fun r => r.1.1.2) rows)
                        (map (fun r => r.1.2) rows)
                        (map (fun r => r.2) rows))
         | None =>
             Ok (Tuple3 (map (fun r => r.1.1.1) rows)
                        (map (fun r => r.1.1.2) rows)
                        (map (fun r => r.1.2) rows))
         end).
Proof.
  intros Hmax. unfold preprocess_ner_tokens.
  destruct (Z.ltb_spec BERT_MAX_LEN max_len); [lia|]. cbn [bind].
  destruct labels; reflexivity.
Qed.

Lemma ner_rows_return (text : list string) (max_len : Z)
    (labels : option (list (list string))) (label_map : option (dict Z)) :
  tokenizer_closed tk ->
  label_map_covers label_map (tag :: "O" :: concat (default [] labels)) ->
  exists rows, ner_rows tk tag text max_len labels label_map = Ok rows.
Proof.
  intros Hclosed Hcov. unfold ner_rows. apply traverse_total.
  apply Forall_forall. intros [t tl] Hin. cbn [fst snd].
  apply ner_row_returns; [exact Hclosed|].
  intros Htruthy. specialize (Hcov Htruthy).
  inversion Hcov as [|? ? Htag Hcov']; subst.
  inversion Hcov' as [|? ? HO Hlabs]; subst.
  constructor; [exact Htag|]. constructor; [exact HO|].
  apply elem_of_zip_r in Hin.
  destruct labels as [l|]; cbn in Hin, Hlabs; unfold default_labels in Hin.
  - apply Forall_forall. intros x Hx.
    eapply Forall_forall in Hlabs; [exact Hlabs|].
    apply list_elem_of_In, in_concat. exists tl.
    split; apply list_elem_of_In; assumption.
  - apply list_elem_of_fmap in Hin as (o & -> & Ho).
    unfold repeat_list in Ho. apply elem_of_replicate in Ho as [-> _].
    repeat constructor. exact HO.
Qed.

(** C4: [preprocess_ner_tokens] returns a 3-tuple exactly when [labels]
    is [None] and a 4-tuple exactly when it is not, whatever label list
    is substituted inside; and it does return, below the length ceiling,
    when the tokenizer's pieces are in the vocabulary and a non-empty
    [label_map] has the labels in use. *)
Theorem C4_ner_arity (text : list string) (max_len : Z)
    (labels : option (list (list string))) (label_map : option (dict Z)) :
  (forall r,
      preprocess_ner_tokens tk text max_len labels label_map tag = Ok r ->
      (arity r = 3%nat <-> labels = None)
      /\ (arity r = 4%nat <-> labels <> None))
  /\ (max_len <= BERT_MAX_LEN ->
      tokenizer_closed tk ->
      label_map_covers label_map (tag :: "O" :: concat (default [] labels)) ->
      exists ids mask tmask,
        match labels with
        | None =>
            preprocess_ner_tokens tk text max_len labels label_map tag
            = Ok (Tuple3 ids mask tmask)
        | Some _ =>
            exists label_ids,
              preprocess_ner_tokens tk text max_len labels label_map tag
              = Ok (Tuple4 ids mask tmask label_ids)
        end).
Proof.
  split.
  - intros r. unfold preprocess_ner_tokens, ner_rows.
    destruct (if BERT_MAX_LEN <? max_len then _ else _) as [m|e];
      [|discriminate].
    cbn [bind]. destruct (traverse _ _) as [rows|e]; [|discriminate].
    cbn [bind]. destruct labels as [l|].
    + rewrite bool_decide_true by discriminate. intros [= <-]. cbn.
      split; split; try discriminate; congruence.
    + rewrite bool_decide_false by congruence. intros [= <-]. cbn.
      split; split; try discriminate; congruence.
  - intros Hmax Hclosed Hcov.
    rewrite preprocess_ner_tokens_unfold by assumption.
    destruct (ner_rows_return text max_len labels label_map Hclosed Hcov)
      as [rows ->].
    cbn [bind]. destruct labels; eauto.
Qed.

Lemma zip_lookup_Some {A B} (x : list A) (y : list B) (r : nat) a b :
  x !! r = Some a -> y !! r = Some b -> zip x y !! r = Some (a, b).
Proof.
  intros Ha Hb. apply lookup_zip_with_Some. eauto.
Qed.

(** C3, as amended: for a word paired with label [l] whose [k] fragments
    lie within [max_len], [preprocess_ner_tokens] emits [l] on the first
    fragment and the trailing tag on fragments 2..k; the trailing mask is
    computed over the padded label sequence, so it has [max_len]
    entries: on fragment 1 it is True exactly when [l] is not the
    trailing tag, on fragments 2..k it is False, and on every padding
    position it is True exactly when the trailing tag is not ["O"]. *)
Theorem C3_ner_fragment_labels (text : list string) (max_len : Z)
    (labels : list (list string)) (label_map : option (dict Z))
    (r : nat) (t : string) (t_labels : list string)
    (before after : list (string * string)) (word l : string) :
  max_len <= BERT_MAX_LEN ->
  tokenizer_closed tk ->
  label_map_covers label_map (tag :: "O" :: concat labels) ->
  text !! r = Some t ->
  labels !! r = Some t_labels ->
  zip (split t) t_labels = before ++ (word, l) :: after ->
  let o := length (fragments tk before.*1) in
  let k := length (tokenize tk word) in
  let n := length (fragments tk (zip (split t) t_labels).*1) in
  Z.of_nat (o + k) <= max_len ->
  exists ids mask tmask label_ids tm lab,
    preprocess_ner_tokens tk text max_len (Some labels) label_map tag
      = Ok (Tuple4 ids mask tmask label_ids)
    /\ tmask !! r = Some tm
    /\ label_ids !! r = Some lab
    /\ len tm = max_len
    /\ (forall i : nat, (i < k)%nat ->
          tm !! (o + i)%nat
            = Some (match i with
                    | O => negb (String.eqb l tag)
                    | S _ => false
                    end)
          /\ exists v,
               map_label label_map (match i with O => l | S _ => tag end)
                 = Ok v
               /\ lab !! (o + i)%nat = Some v)
    /\ (forall p : nat, (n <= p)%nat -> Z.of_nat p < max_len ->
          tm !! p = Some (negb (String.eqb "O" tag))).
Proof.
  intros Hmax Hclosed Hcov Ht Htl Hzip o k n Hfit.
  rewrite preprocess_ner_tokens_unfold by assumption.
  destruct (ner_rows_return text max_len (Some labels) label_map Hclosed Hcov)
    as [rows Hrows].
  rewrite Hrows. cbn [bind].
  pose proof (zip_lookup_Some _ _ _ _ _ Ht Htl) as Hr.
  destruct (traverse_lookup _ _ _ _ _ Hrows Hr)
    as ([[[ids mask] tm] lab] & Hrow & Hner).
  cbn [fst snd] in Hner.
  apply ner_row_Ok in Hner; [|lia].
  destruct Hner as (_ & _ & Htm & Hlab).
  unfold sentence_pieces in Htm, Hlab.
  rewrite pairs_pieces_length in Htm, Hlab. fold n in Htm, Hlab.
  eexists _, _, _, _, tm, lab. split; [reflexivity|].
  split; [rewrite list_lookup_fmap, Hrow; reflexivity|].
  split; [rewrite list_lookup_fmap, Hrow; reflexivity|].
  assert (Hlen : length (pairs_pieces tk tag (zip (split t) t_labels)).*2 = n).
  { rewrite length_fmap. apply pairs_pieces_length. }
  split.
  { rewrite Htm. unfold len.
    rewrite length_map, length_app, length_take, length_replicate, Hlen.
    lia. }
  split.
  - intros i Hi.
    assert (Hnew :
      (take (Z.to_nat max_len) (pairs_pieces tk tag (zip (split t) t_labels)).*2
         ++ replicate (Z.to_nat max_len - n) "O") !! (o + i)%nat
      = Some (match i with O => l | S _ => tag end)).
    { rewrite lookup_app_l.
      - rewrite lookup_take_lt by (fold k in Hi; lia).
        rewrite Hzip. apply pairs_pieces_lookup. exact Hi.
      - rewrite length_take, Hlen.
        assert (o + k <= n)%nat; [|fold k in Hi; lia].
        unfold n, o, k, fragments. rewrite Hzip, fmap_app, flat_map_app.
        cbn. rewrite !length_app. lia. }
    split.
    + rewrite Htm, list_lookup_fmap, Hnew. destruct i; [reflexivity|].
      cbn. rewrite String.eqb_refl. reflexivity.
    + destruct (traverse_lookup _ _ _ _ _ Hlab Hnew) as (v & Hv & Hm).
      eauto.
  - intros p Hp Hlt. rewrite Htm, list_lookup_fmap.
    rewrite lookup_app_r by (rewrite length_take, Hlen; lia).
    rewrite length_take, Hlen.
    rewrite lookup_replicate_2 by lia. reflexivity.
Qed.
End Ner.

Lemma toy_closed : tokenizer_closed toy.
Proof.
  intros w. apply Forall_forall. intros t _. cbn. unfold toy_vocab.
  repeat match goal with |- context [if ?b then _ else _] => destruct b end;
    eexists; reflexivity.
Qed.

Lemma label_map_covers_None (ls : list string) : label_map_covers None ls.
Proof. intros H. discriminate H. Qed.

Lemma C3_witness :
  exists ids mask tmask label_ids tm lab,
    preprocess_ner_tokens toy ["playing soccer"] 5
                          (Some [["B-ACT"; "B-OBJ"]]) None "X"
      = Ok (Tuple4 ids mask tmask label_ids)
    /\ tmask !! 0%nat = Some tm /\ label_ids !! 0%nat = Some lab
    /\ tm !! 0%nat = Some true /\ tm !! 1%nat = Some false
    /\ lab !! 0%nat = Some (LStr "B-ACT") /\ lab !! 1%nat = Some (LStr "X")
    /\ tm !! 4%nat = Some true.
Proof.
  destruct (C3_ner_fragment_labels toy "X" ["playing soccer"] 5
              [["B-ACT"; "B-OBJ"]] None 0 "playing soccer"
              ["B-ACT"; "B-OBJ"] [] [("soccer", "B-OBJ")] "playing" "B-ACT")
    as (ids & mask & tmask & label_ids & tm & lab
        & Hcall & Htm & Hlab & _ & Hword & Hpad).
  - unfold BERT_MAX_LEN. lia.
  - exact toy_closed.
  - apply label_map_covers_None.
  - reflexivity.
  - reflexivity.
  - reflexivity.
  - vm_compute. discriminate.
  - exists ids, mask, tmask, label_ids, tm, lab.
    destruct (Hword 0%nat) as (H0 & v0 & Hv0 & Hl0); [vm_compute; lia|].
    destruct (Hword 1%nat) as (H1 & v1 & Hv1 & Hl1); [vm_compute; lia|].
    injection Hv0 as <-. injection Hv1 as <-.
    pose proof (Hpad 4%nat) as H4.
    repeat split; try assumption.
    apply H4; [vm_compute; lia|lia].
Defined.

(** C3 as stated fails: the trailing mask is computed after padding, so it
    is as long as the padded sequence (3 here, for one real token) and is
    True on the two padding positions, which hold no first fragment. *)
Lemma C3_counterexample :
  preprocess_ner_tokens toy ["a"] 3 (Some [["B"]]) None "X"
  = Ok (Tuple4 [[PyInt 1001; PyFloat 0; PyFloat 0]]
               [[PyFloat 1; PyFloat 0; PyFloat 0]]
               [[true; true; true]]
               [[LStr "B"; LStr "O"; LStr "O"]])
  /\ fragments toy (split "a") = ["a"]
  /\ [true; true; true] !! 1%nat = Some true
  /\ length [true; true; true] <> length (fragments toy (split "a")).
Proof. repeat split; vm_compute; discriminate. Qed.

Lemma C4_witness :
  (exists ids mask tmask,
     preprocess_ner_tokens toy ["play soccer"] 4 None None "X"
     = Ok (Tuple3 ids mask tmask))
  /\ (exists ids mask tmask label_ids,
        preprocess_ner_tokens toy ["play soccer"] 4 (Some [["B"; "I"]])
                              (Some [("B", 1); ("I", 2); ("O", 0); ("X", 3)])
                              "X"
        = Ok (Tuple4 ids mask tmask label_ids)).
Proof.
  split.
  - apply (proj2 (C4_ner_arity toy "X" ["play soccer"] 4 None None)).
    + unfold BERT_MAX_LEN. lia.
    + exact toy_closed.
    + apply label_map_covers_None.
  - destruct (proj2 (C4_ner_arity toy "X" ["play soccer"] 4
                       (Some [["B"; "I"]])
                       (Some [("B", 1); ("I", 2); ("O", 0); ("X", 3)])))
      as (ids & mask & tmask & label_ids & H).
    + unfold BERT_MAX_LEN. lia.
    + exact toy_closed.
    + intros _. repeat constructor; eexists; reflexivity.
    + exists ids, mask, tmask, label_ids. exact H.
Defined.

Example ner_small :
  preprocess_ner_tokens toy ["playing soccer"] 5 (Some [["B-ACT"; "B-OBJ"]])
                        None "X"
  = Ok (Tuple4 [[PyInt 1004; PyInt 1005; PyInt 1004; PyInt 1004; PyFloat 0]]
               [[PyFloat 1; PyFloat 1; PyFloat 1; PyFloat 1; PyFloat 0]]
               [[true; false; true; false; true]]
               [[LStr "B-ACT"; LStr "X"; LStr "B-OBJ"; LStr "X"; LStr "O"]]).
Proof. reflexivity. Qed.

(** Without labels only the first word of a sentence is tokenized: the
    artificial label of the sentence is the one-character string ["O"]. *)
Example ner_no_labels :
  preprocess_ner_tokens toy ["play soccer"] 4 None None "X"
  = Ok (Tuple3 [[PyInt 1004; PyFloat 0; PyFloat 0; PyFloat 0]]
               [[PyFloat 1; PyFloat 0; PyFloat 0; PyFloat 0]]
               [[true; true; true; true]]).
Proof. reflexivity. Qed.

(* ================================================================== *)
(** * The length ceiling *)
(* ================================================================== *)

(** The sequence variant replaces a [max_len] above the ceiling by the
    ceiling. *)
Lemma classification_over_ceiling (tk : BertTokenizer)
    (tokens : list (list string)) (max_len : Z) :
  BERT_MAX_LEN < max_len ->
  preprocess_classification_tokens tk tokens max_len
  = preprocess_classification_tokens tk tokens BERT_MAX_LEN.
Proof.
  intros H. unfold preprocess_classification_tokens.
  destruct (Z.ltb_spec BERT_MAX_LEN max_len); [|lia].
  reflexivity.
Qed.

(** The token variant names a logger that the module does not define, so
    every call above the ceiling stops there. *)
Lemma ner_over_ceiling (tk : BertTokenizer) (text : list string)
    (max_len : Z) (labels : option (list (list string)))
    (label_map : option (dict Z)) (tag : string) :
  BERT_MAX_LEN < max_len ->
  preprocess_ner_tokens tk text max_len labels label_map tag
  = Raise (NameError "logger").
Proof.
  intros H. unfold preprocess_ner_tokens.
  destruct (Z.ltb_spec BERT_MAX_LEN max_len); [|lia].
  reflexivity.
Qed.

(** C2 at [max_len = 513]: the sequence variant uses 512, as claimed; the
    token variant does not succeed, it raises [NameError] for the name
    [logger]. *)
Theorem C2_ner_over_ceiling_raises :
  preprocess_classification_tokens toy [["a"]] 513
  = preprocess_classification_tokens toy [["a"]] 512
  /\ preprocess_ner_tokens toy ["a"] 513 None None "X"
     = Raise (NameError "logger").
Proof. split; reflexivity. Qed.


(* ================================================================== *)
(** * The post-processor *)
(* ================================================================== *)

Section Postprocess.

Context {A : Type}.

Lemma strip_padding_zeros (x : list A) (j : nat) :
  strip_padding x (replicate j (PyFloat 0)) = [].
Proof.
  revert x. induction j as [|j IH]; intros [|a x]; try reflexivity.
  cbn. apply IH.
Qed.

Lemma strip_padding_ones (x : list A) (n : nat) (rest : list num) :
  strip_padding x (replicate n (PyFloat 1) ++ rest)
  = take n x ++ strip_padding (drop n x) rest.
Proof.
  revert x. induction n as [|n IH]; intros [|a x]; try reflexivity.
  cbn. f_equal. apply IH.
Qed.

Lemma strip_padding_mask (x : list A) (n j : nat) :
  strip_padding x (replicate n (PyFloat 1) ++ replicate j (PyFloat 0))
  = take n x.
Proof.
  rewrite strip_padding_ones, strip_padding_zeros. apply app_nil_r.
Qed.

Lemma keep_first_pieces_false (row : list A) (j : nat) (mask : list bool) :
  keep_first_pieces row (replicate j false ++ mask)
  = keep_first_pieces (drop j row) mask.
Proof.
  revert row. induction j as [|j IH]; intros [|a row]; try reflexivity.
  cbn. apply IH.
Qed.

Lemma keep_first_pieces_true (a : A) (row : list A) (mask : list bool) :
  keep_first_pieces (a :: row) (true :: mask)
  = a :: keep_first_pieces row mask.
Proof. reflexivity. Qed.

Lemma first_pieces_length (counts : list nat) (row : list A) :
  Forall (fun k => (1 <= k)%nat) counts ->
  (list_sum counts <= length row)%nat ->
  length (first_pieces counts row) = length counts.
Proof.
  intros Hc. revert row. induction Hc as [|k counts Hk _ IH]; intros row Hl.
  - reflexivity.
  - change (list_sum (k :: counts)) with (k + list_sum counts)%nat in Hl.
    cbn [first_pieces length].
    rewrite length_app, IH by (rewrite length_drop; lia).
    rewrite length_take. lia.
Qed.

Lemma first_pieces_take (counts : list nat) (row : list A) (n : nat) :
  Forall (fun k => (1 <= k)%nat) counts ->
  (list_sum counts <= n)%nat ->
  first_pieces counts (take n row) = first_pieces counts row.
Proof.
  intros Hc. revert row n.
  induction Hc as [|k counts Hk _ IH]; intros row n Hl; [reflexivity|].
  change (list_sum (k :: counts)) with (k + list_sum counts)%nat in Hl.
  cbn [first_pieces]. rewrite take_take. rewrite Nat.min_l by lia.
  f_equal. replace n with (k + (n - k))%nat by lia.
  rewrite <- take_drop_commute. apply IH. lia.
Qed.

End Postprocess.

Section Roundtrip.

Variable tk : BertTokenizer.
Variable tag : string.

Lemma word_pieces_labels (w l : string) :
  tokenize tk w <> [] ->
  (word_pieces tk tag w l).*2
  = l :: replicate (length (tokenize tk w) - 1) tag.
Proof.
  intros Hne. apply list_eq. intros i.
  rewrite list_lookup_fmap, word_pieces_lookup.
  destruct i as [|i].
  - destruct (tokenize tk w); [contradiction|reflexivity].
  - cbn [lookup list_lookup].
    destruct (tokenize tk w !! S i) as [s|] eqn:E; cbn; symmetry.
    + apply lookup_replicate_2. apply lookup_lt_Some in E. lia.
    + apply lookup_replicate_None. apply lookup_ge_None in E. lia.
Qed.

Lemma fragment_counts_sum (words : list string) :
  list_sum (fragment_counts tk words) = length (fragments tk words).
Proof.
  induction words as [|w words IH]; [reflexivity|].
  unfold fragments in *. cbn. rewrite length_app. unfold fragment_counts in IH.
  rewrite <- IH. reflexivity.
Qed.

Lemma keep_first_pieces_pairs {A} (pairs : list (string * string))
    (row : list A) :
  Forall (fun wt => wt.2 <> tag /\ tokenize tk wt.1 <> []) pairs ->
  (length (pairs_pieces tk tag pairs) <= length row)%nat ->
  keep_first_pieces row
    (map (fun label => negb (String.eqb label tag))
         (pairs_pieces tk tag pairs).*2)
  = first_pieces (fragment_counts tk pairs.*1) row.
Proof.
  intros Hp. revert row.
  induction Hp as [|[w l] pairs [Hl Hw] _ IH]; intros row Hlen.
  - destruct row; reflexivity.
  - cbn [fst snd] in Hl, Hw.
    unfold pairs_pieces in *. cbn [flat_map fst snd] in *.
    rewrite length_app, word_pieces_length in Hlen.
    rewrite fmap_app, map_app, word_pieces_labels by assumption.
    assert (Hk : (1 <= length (tokenize tk w))%nat).
    { destruct (tokenize tk w); [contradiction|cbn; lia]. }
    destruct row as [|a row]; [cbn in Hlen; lia|].
    cbn [map]. rewrite (proj2 (String.eqb_neq l tag)) by assumption.
    cbn [negb app]. rewrite keep_first_pieces_true.
    change (map ?f ?l) with (f <$> l). rewrite fmap_replicate.
    rewrite String.eqb_refl. cbn [negb].
    rewrite keep_first_pieces_false.
    cbn [fmap list_fmap fragment_counts map first_pieces fst].
    change (take 1 (a :: row)) with [a]. cbn [app]. f_equal.
    replace (length (tokenize tk w)) with (S (length (tokenize tk w) - 1))
      at 2 by lia.
    cbn [drop]. apply IH. rewrite length_drop. cbn in Hlen. lia.
Qed.


Lemma postprocess_row {A} (max_len : Z) (label_map : option (dict Z))
    (t : string) (t_labels : list string) (ids mask : list num)
    (tm : list bool) (lab : list label) (o : list A) :
  labelled_sentence tk tag max_len t t_labels ->
  ner_row tk max_len label_map tag t t_labels = Ok (ids, mask, tm, lab) ->
  len o = max_len ->
  keep_first_pieces (strip_padding o mask) (strip_padding tm mask)
  = first_pieces (fragment_counts tk (split t)) o.
Proof.
  intros (Hlen & Hlabs & Hwords & Hfit) Hrow Ho.
  assert (Hfst : (zip (split t) t_labels).*1 = split t)
    by (apply fst_zip; lia).
  apply ner_row_Ok in Hrow; [|lia].
  destruct Hrow as (Hmask & _ & Htm & _).
  unfold sentence_pieces in *. rewrite pairs_pieces_length, Hfst in *.
  set (n := length (fragments tk (split t))) in *.
  set (m := Z.to_nat max_len) in *.
  assert (Hn : (n <= m)%nat) by lia.
  rewrite Nat.min_r in Hmask by lia.
  assert (Hl2 : length (pairs_pieces tk tag (zip (split t) t_labels)).*2 = n).
  { rewrite length_fmap, pairs_pieces_length, Hfst. reflexivity. }
  rewrite take_ge in Htm by lia.
  rewrite map_app in Htm.
  rewrite Hmask, !strip_padding_mask, Htm.
  rewrite take_app_length' by (rewrite length_map; symmetry; exact Hl2).
  assert (Hc : Forall (fun k => (1 <= k)%nat) (fragment_counts tk (split t))).
  { unfold fragment_counts. apply Forall_fmap. eapply Forall_impl; [exact Hwords|].
    intros w Hw. cbn in *. destruct (tokenize tk w); [congruence|cbn; lia]. }
  rewrite keep_first_pieces_pairs.
  - rewrite Hfst. apply first_pieces_take; [exact Hc|].
    rewrite fragment_counts_sum. reflexivity.
  - apply Forall_forall. intros [w l] Hin. cbn [fst snd]. split.
    + eapply Forall_forall in Hlabs; [exact Hlabs|].
      eapply elem_of_zip_r, Hin.
    + eapply Forall_forall in Hwords; [exact Hwords|].
      eapply elem_of_zip_l, Hin.
  - rewrite pairs_pieces_length, Hfst, length_take.
    unfold len in Ho. fold n. lia.
Qed.

Lemma postprocess_rows {A} (max_len : Z) (label_map : option (dict Z))
    (text : list string) (labels : list (list string))
    (rows : list (list num * list num * list bool * list label))
    (org : list (list A)) :
  Forall2 (labelled_sentence tk tag max_len) text labels ->
  Forall2 (fun tl row =>
             ner_row tk max_len label_map tag tl.1 tl.2 = Ok row)
          (zip text labels) rows ->
  Forall2 (fun (t : string) o => len o = max_len) text org ->
  map (fun lm => keep_first_pieces lm.1 lm.2)
      (zip (map (fun lm => strip_padding lm.1 lm.2)
                (zip org (map (fun r => r.1.1.2) rows)))
           (map (fun tp => strip_padding tp.1 tp.2)
                (zip (map (fun r => r.1.2) rows)
                     (map (fun r => r.1.1.2) rows))))
  = zip_with (fun t row => first_pieces (fragment_counts tk (split t)) row) text org.
Proof.
  intros Hs. revert rows org.
  induction Hs as [|t tl text labels Ht _ IH]; intros rows org Hrows Horg.
  - apply Forall2_nil_inv_l in Horg as ->. reflexivity.
  - apply Forall2_cons_inv_l in Horg as (o & org' & Ho & Horg' & ->).
    cbn in Hrows.
    apply Forall2_cons_inv_l in Hrows
      as ([[[ids mask] tm] lab] & rows' & Hrow & Hrows' & ->).
    cbn [fst snd] in Hrow. cbn. f_equal.
    + exact (postprocess_row max_len label_map t tl ids mask tm lab o
                             Ht Hrow Ho).
    + apply IH; assumption.
Qed.

(** C5, as amended: when labels are supplied, one per word and none equal
    to the trailing tag, every word has at least one fragment and the
    fragments of each sentence fit in [max_len], then for every prediction
    array with one label per token position, [postprocess_token_labels]
    with trailing-piece removal, run on the mask and trailing mask that
    [preprocess_ner_tokens] returns, gives exactly one label per word, in
    word order: the prediction at the word's first fragment. *)
Theorem C5_postprocess_recovers_word_labels
    (text : list string) (max_len : Z) (labels : list (list string))
    (label_map post_map : option (dict Z))
    (preds : list (list Z)) (org : list (list label)) :
  max_len <= BERT_MAX_LEN ->
  tokenizer_closed tk ->
  label_map_covers label_map (tag :: "O" :: concat labels) ->
  Forall2 (labelled_sentence tk tag max_len) text labels ->
  Forall2 (fun (t : string) row => len row = max_len) text preds ->
  traverse (traverse (original_label post_map)) preds = Ok org ->
  exists ids mask tmask label_ids out,
    preprocess_ner_tokens tk text max_len (Some labels) label_map tag
      = Ok (Tuple4 ids mask tmask label_ids)
    /\ postprocess_token_labels preds mask post_map true (Some tmask)
       = Ok out
    /\ out = zip_with (fun t row => first_pieces (fragment_counts tk (split t)) row)
                      text org
    /\ Forall2 (fun t row => length row = length (split t)) text out.
Proof.
  intros Hmax Hclosed Hcov Hs Hpreds Horg.
  rewrite preprocess_ner_tokens_unfold by assumption.
  destruct (ner_rows_return tk tag text max_len (Some labels) label_map
              Hclosed Hcov) as [rows Hrows].
  rewrite Hrows. cbn [bind].
  eexists _, _, _, _,
    (zip_with (fun t row => first_pieces (fragment_counts tk (split t)) row) text org).
  split; [reflexivity|].
  unfold ner_rows in Hrows. cbn [default_labels] in Hrows.
  apply traverse_Ok_Forall2 in Hrows.
  assert (Horg' : Forall2 (fun (t : string) o => len o = max_len) text org).
  { apply traverse_Ok_Forall2 in Horg.
    clear - Hpreds Horg. revert org Horg.
    induction Hpreds as [|t p text preds Hp _ IH]; intros org Horg.
    - apply Forall2_nil_inv_l in Horg as ->. constructor.
    - apply Forall2_cons_inv_l in Horg as (o & org' & Ho & Horg' & ->).
      constructor; [|apply IH; exact Horg'].
      apply traverse_length in Ho. unfold len in *. lia. }
  pose proof (postprocess_rows max_len label_map text labels rows org
                Hs Hrows Horg') as Hpost.
  assert (Hout : Forall2 (fun t row => length row = length (split t)) text
           (zip_with (fun t row => first_pieces (fragment_counts tk (split t)) row)
                     text org)).
  { clear - Hs Horg'. revert org Horg'.
    induction Hs as [|t tl text labels (Hl & _ & Hw & Hfit) _ IH];
      intros org Horg.
    { apply Forall2_nil_inv_l in Horg as ->. constructor. }
    apply Forall2_cons_inv_l in Horg as (o & org' & Ho & Horg' & ->).
    cbn. constructor.
    - rewrite first_pieces_length.
      + unfold fragment_counts. apply length_map.
      + unfold fragment_counts. apply Forall_fmap. eapply Forall_impl; [exact Hw|].
        intros w Hne. cbn in *.
        destruct (tokenize tk w); [congruence|cbn; lia].
      + rewrite fragment_counts_sum. unfold len in Ho. lia.
    - apply IH. exact Horg'. }
  unfold postprocess_token_labels. rewrite Horg. cbn [bind andb].
  destruct (truthy (Some (map (fun r => r.1.2) rows))) eqn:Htruthy.
  - split; [f_equal; exact Hpost|]. split; [reflexivity|exact Hout].
  - destruct rows as [|row rows]; [|discriminate].
    apply Forall2_nil_inv_r in Hrows.
    destruct Hs as [|t tl text labels]; [|discriminate].
    apply Forall2_nil_inv_l in Horg' as ->. cbn. auto.
Qed.

End Roundtrip.

Lemma C5_witness :
  exists ids mask tmask label_ids,
    preprocess_ner_tokens toy ["playing soccer"] 5
                          (Some [["B-ACT"; "B-OBJ"]]) None "X"
      = Ok (Tuple4 ids mask tmask label_ids)
    /\ postprocess_token_labels [[7; 8; 9; 10; 11]] mask None true (Some tmask)
       = Ok [[LId 7; LId 9]].
Proof.
  destruct (C5_postprocess_recovers_word_labels toy "X" ["playing soccer"] 5
              [["B-ACT"; "B-OBJ"]] None None [[7; 8; 9; 10; 11]]
              [[LId 7; LId 8; LId 9; LId 10; LId 11]])
    as (ids & mask & tmask & label_ids & out & Hpre & Hpost & Hout & _).
  - unfold BERT_MAX_LEN. lia.
  - exact toy_closed.
  - apply label_map_covers_None.
  - repeat constructor; try discriminate; vm_compute; discriminate.
  - repeat constructor.
  - reflexivity.
  - exists ids, mask, tmask, label_ids. split; [exact Hpre|].
    rewrite Hpost, Hout. reflexivity.
Defined.

(** C5 as stated fails when a word carries the trailing tag as its own
    label: the mask is False on that word's first fragment, so the word
    gets no label (one label comes back for two words). *)
Lemma C5_counterexample :
  preprocess_ner_tokens toy ["a b"] 3 (Some [["X"; "B"]]) None "X"
  = Ok (Tuple4 [[PyInt 1001; PyInt 1001; PyFloat 0]]
               [[PyFloat 1; PyFloat 1; PyFloat 0]]
               [[false; true; true]]
               [[LStr "X"; LStr "B"; LStr "O"]])
  /\ postprocess_token_labels [[7; 8; 9]] [[PyFloat 1; PyFloat 1; PyFloat 0]]
                              None true (Some [[false; true; true]])
     = Ok [[LId 8]]
  /\ split "a b" = ["a"; "b"]
  /\ length [LId 8] <> length (split "a b").
Proof. repeat split; vm_compute; discriminate. Qed.

(** Without labels the artificial label list gives each sentence the
    string ["O"], which pairs with the first word only: one label comes
    back for the two words. *)
Example postprocess_without_labels :
  preprocess_ner_tokens toy ["play soccer"] 4 None None "X"
  = Ok (Tuple3 [[PyInt 1004; PyFloat 0; PyFloat 0; PyFloat 0]]
               [[PyFloat 1; PyFloat 0; PyFloat 0; PyFloat 0]]
               [[true; true; true; true]])
  /\ postprocess_token_labels [[7; 8; 9; 10]]
                              [[PyFloat 1; PyFloat 0; PyFloat 0; PyFloat 0]]
                              None true (Some [[true; true; true; true]])
     = Ok [[LId 7]].
Proof. split; reflexivity. Qed.

(* ================================================================== *)
(** * The batch builder *)
(* ================================================================== *)

Lemma len_map {A B} (f : A -> B) (l : list A) : len (map f l) = len l.
Proof. unfold len. rewrite length_map. reflexivity. Qed.

Lemma rectangular_torch_tensor (rows : list (list num)) :
  rectangular rows = true ->
  torch_tensor rows = Ok (Tensor2 (map (map num_val) rows)).
Proof. intros H. unfold torch_tensor. rewrite H. reflexivity. Qed.

(** On well-formed rows only the choice of the sampler and the batch size
    decide the outcome. *)
Lemma create_data_loader_wellformed
    (input_ids input_mask : list (list num))
    (label_ids : option (list (list num)))
    (sample_method : string) (batch_size : Z) :
  rows_wellformed input_ids input_mask label_ids ->
  create_data_loader input_ids input_mask label_ids sample_method batch_size
  = match dict_get name_to_sampler_class sample_method with
    | Some sampler_class =>
        DataLoader (dataset_of input_ids input_mask label_ids)
                   sampler_class batch_size
    | None => Raise (ValueError (invalid_sample_method sample_method))
    end.
Proof.
  intros (Hids & Hmask & Hlen & Hlab).
  unfold create_data_loader, dataset_of.
  rewrite !rectangular_torch_tensor by assumption. cbn [bind].
  destruct label_ids as [[|row l]|]; cbn [truthy default].
  - unfold TensorDataset. cbn [forallb size0]. rewrite !len_map, Hlen.
    rewrite ?Z.eqb_refl. cbn [andb bind app].
    destruct (dict_get name_to_sampler_class sample_method); reflexivity.
  - destruct (Hlab (row :: l) eq_refl) as [Hr Hl]; [discriminate|].
    set (lab := row :: l) in *.
    rewrite rectangular_torch_tensor by assumption. cbn [bind].
    unfold TensorDataset. cbn [forallb size0]. unfold id.
    rewrite !len_map, Hlen, Hl.
    rewrite ?Z.eqb_refl. cbn [andb bind app].
    destruct (dict_get name_to_sampler_class sample_method); reflexivity.
  - unfold TensorDataset. cbn [forallb size0]. rewrite !len_map, Hlen.
    rewrite ?Z.eqb_refl. cbn [andb bind app].
    destruct (dict_get name_to_sampler_class sample_method); reflexivity.
Qed.

Lemma dict_get_sampler_None (sample_method : string) :
  sample_method ∉ accepted_sample_methods ->
  dict_get name_to_sampler_class sample_method = None.
Proof.
  intros Hnot. unfold name_to_sampler_class. cbn [dict_get].
  repeat match goal with
  | |- context [String.eqb ?a ?b] =>
      destruct (String.eqb_spec a b) as [<-|_];
        [exfalso; apply Hnot; unfold accepted_sample_methods; set_solver|]
  end.
  reflexivity.
Qed.

Lemma dict_get_sampler_Some (sample_method : string) :
  sample_method ∈ accepted_sample_methods ->
  exists c, dict_get name_to_sampler_class sample_method = Some c.
Proof.
  unfold accepted_sample_methods. intros H.
  repeat (apply elem_of_cons in H as [->|H]; [eexists; reflexivity|]).
  inversion H.
Qed.

Lemma append_assoc (s1 s2 s3 : string) :
  (s1 +:+ s2) +:+ s3 = s1 +:+ (s2 +:+ s3).
Proof.
  induction s1 as [|c s1 IH]; [reflexivity|].
  change (String c ((s1 +:+ s2) +:+ s3) = String c (s1 +:+ (s2 +:+ s3))).
  rewrite IH. reflexivity.
Qed.

Lemma mentions_middle (pre s post : string) : mentions (pre +:+ s +:+ post) s.
Proof. exists pre, post. reflexivity. Qed.

Lemma invalid_sample_method_mentions (s : string) :
  mentions (invalid_sample_method s) s
  /\ mentions (invalid_sample_method s) "random"
  /\ mentions (invalid_sample_method s) "sequential"
  /\ mentions (invalid_sample_method s) "distributed".
Proof.
  unfold invalid_sample_method. split; [apply mentions_middle|].
  split; [|split].
  - exists ("Invalid sample_method value: " +:+ s +:+ ", accepted values are: "),
      ", sequential, and distributed".
    rewrite !append_assoc. reflexivity.
  - exists ("Invalid sample_method value: " +:+ s
            +:+ ", accepted values are: random, "), ", and distributed".
    rewrite !append_assoc. reflexivity.
  - exists ("Invalid sample_method value: " +:+ s
            +:+ ", accepted values are: random, sequential, and "),
      EmptyString.
    rewrite !append_assoc. reflexivity.
Qed.

Lemma invalid_sample_method_not_shape (s : string) :
  invalid_sample_method s <> "expected sequence of equal length at dim 1".
Proof. unfold invalid_sample_method. cbn. discriminate. Qed.

Lemma invalid_sample_method_not_batch_size (s : string) :
  invalid_sample_method s <> "batch_size should be a positive integer value".
Proof. unfold invalid_sample_method. cbn. discriminate. Qed.

Lemma torch_tensor_Raise (rows : list (list num)) (e : exn) :
  torch_tensor rows = Raise e ->
  e = ValueError "expected sequence of equal length at dim 1".
Proof.
  unfold torch_tensor. destruct (rectangular rows); [discriminate|].
  intros [= <-]. reflexivity.
Qed.

Lemma TensorDataset_Raise (tensors : list tensor) (e : exn) :
  TensorDataset tensors = Raise e -> e = AssertionError.
Proof.
  unfold TensorDataset. destruct tensors as [|t ts]; [discriminate|].
  destruct (forallb _ ts); [discriminate|]. intros [= <-]. reflexivity.
Qed.

Lemma DataLoader_Raise (d : list tensor) (c : sampler_class) (bs : Z) (e : exn) :
  DataLoader d c bs = Raise e ->
  e = ValueError "batch_size should be a positive integer value".
Proof.
  unfold DataLoader. destruct (bs <=? 0); [|discriminate].
  intros [= <-]. reflexivity.
Qed.

Lemma create_data_loader_accepted
    (input_ids input_mask : list (list num))
    (label_ids : option (list (list num)))
    (sample_method : string) (batch_size : Z) (s' : string) :
  sample_method ∈ accepted_sample_methods ->
  create_data_loader input_ids input_mask label_ids sample_method batch_size
  <> Raise (ValueError (invalid_sample_method s')).
Proof.
  intros Hin. destruct (dict_get_sampler_Some _ Hin) as [c Hc].
  unfold create_data_loader. rewrite Hc.
  pose proof (invalid_sample_method_not_shape s') as Hshape.
  pose proof (invalid_sample_method_not_batch_size s') as Hbs.
  destruct (torch_tensor input_ids) as [a|e] eqn:Ha; cbn [bind];
    [|apply torch_tensor_Raise in Ha; congruence].
  destruct (torch_tensor input_mask) as [b|e] eqn:Hb; cbn [bind];
    [|apply torch_tensor_Raise in Hb; congruence].
  assert (Hdl : forall d,
    DataLoader d c batch_size <> Raise (ValueError (invalid_sample_method s'))).
  { intros d Hd. apply DataLoader_Raise in Hd. congruence. }
  destruct (truthy label_ids).
  - destruct (torch_tensor (default [] label_ids)) as [l|e] eqn:Hl;
      cbn [bind]; [|apply torch_tensor_Raise in Hl; congruence].
    destruct (TensorDataset [a; b; l]) as [d|e] eqn:Hd; cbn [bind];
      [apply Hdl|apply TensorDataset_Raise in Hd; congruence].
  - destruct (TensorDataset [a; b]) as [d|e] eqn:Hd; cbn [bind];
      [apply Hdl|apply TensorDataset_Raise in Hd; congruence].
Qed.



Example create_data_loader_bogus :
  create_data_loader [[PyInt 1; PyInt 2]] [[PyInt 1; PyInt 1]] None "bogus" 32
  = Raise (ValueError "Invalid sample_method value: bogus, accepted values are: random, sequential, and distributed").
Proof. reflexivity. Qed.

Lemma torch_tensor_Ok (rows : list (list num)) (t : tensor) :
  torch_tensor rows = Ok t -> t = Tensor2 (map (map num_val) rows).
Proof.
  unfold torch_tensor. destruct (rectangular rows); [|discriminate].
  intros [= <-]. reflexivity.
Qed.

Lemma TensorDataset_Ok (tensors d : list tensor) :
  TensorDataset tensors = Ok d -> d = tensors.
Proof.
  unfold TensorDataset. destruct tensors as [|t ts]; [intros [= <-]; reflexivity|].
  destruct (forallb _ ts); [|discriminate]. intros [= <-]. reflexivity.
Qed.

Lemma DataLoader_Ok (d : list tensor) (c : sampler_class) (bs : Z)
    (dl : DataLoader_t) :
  DataLoader d c bs = Ok dl ->
  0 < bs /\ dl = {| dataset := d; sampler := c; batch_size := bs |}.
Proof.
  unfold DataLoader. destruct (Z.leb_spec bs 0); [discriminate|].
  intros [= <-]. split; [lia|reflexivity].
Qed.

(** What a returned loader holds. *)
Lemma create_data_loader_Ok
    (input_ids input_mask : list (list num))
    (label_ids : option (list (list num)))
    (sample_method : string) (bs : Z) (dl : DataLoader_t) :
  create_data_loader input_ids input_mask label_ids sample_method bs = Ok dl ->
  0 < bs
  /\ batch_size dl = bs
  /\ dataset dl = dataset_of input_ids input_mask label_ids.
Proof.
  unfold create_data_loader, dataset_of.
  destruct (torch_tensor input_ids) as [a|e] eqn:Ha; [|discriminate].
  destruct (torch_tensor input_mask) as [b|e] eqn:Hb; [|discriminate].
  apply torch_tensor_Ok in Ha, Hb. subst a b. cbn [bind].
  destruct (truthy label_ids).
  - destruct (torch_tensor (default [] label_ids)) as [l|e] eqn:Hl;
      [|discriminate].
    apply torch_tensor_Ok in Hl. subst l. cbn [bind].
    destruct (TensorDataset _) as [d|e] eqn:Hd; [|discriminate].
    apply TensorDataset_Ok in Hd. subst d. cbn [bind].
    destruct (dict_get _ _) as [c|]; [|discriminate]. cbn [bind].
    intros Hdl. apply DataLoader_Ok in Hdl as [Hbs ->]. auto.
  - destruct (TensorDataset _) as [d|e] eqn:Hd; [|discriminate].
    apply TensorDataset_Ok in Hd. subst d. cbn [bind].
    destruct (dict_get _ _) as [c|]; [|discriminate]. cbn [bind].
    intros Hdl. apply DataLoader_Ok in Hdl as [Hbs ->]. auto.
Qed.


(* ================================================================== *)
(** * The classifier wrappers: prediction *)
(* ================================================================== *)

Section TokenPredict.

Context {Logit Loss : Type}.
Variable model : tensor -> tensor -> list (list Logit).
Variable argmax : Logit -> Z.
Variable cross_entropy : list Logit -> list Z -> Loss.

Lemma predict_loop_empty_labels (st : predict_state (Loss := Loss))
    (batches : list (list tensor)) :
  predict_loop model argmax cross_entropy (Some []) st batches
  = predict_loop model argmax cross_entropy None st batches.
Proof.
  revert st. induction batches as [|batch batches IH]; intros st.
  - reflexivity.
  - cbn [predict_loop].
    change (predict_batch model argmax cross_entropy (Some []) st batch)
      with (predict_batch model argmax cross_entropy None st batch).
    destruct (predict_batch _ _ _ None st batch); cbn [bind]; auto.
Qed.

Lemma predict_loop_no_labels (labels : option (list (list num)))
    (st st' : predict_state (Loss := Loss)) (batches : list (list tensor)) :
  truthy labels = false ->
  predict_loop model argmax cross_entropy labels st batches = Ok st' ->
  st_eval_loss st' = st_eval_loss st
  /\ (st_true_label_available st' = st_true_label_available st
      \/ st_true_label_available st' = Some false).
Proof.
  intros Hl. revert st. induction batches as [|batch batches IH]; intros st.
  - intros [= <-]. auto.
  - cbn [predict_loop].
    destruct (predict_batch _ _ _ labels st batch) as [st1|e] eqn:Hb;
      [|discriminate].
    cbn [bind]. intros Hloop. apply IH in Hloop as [Hloss Havail].
    unfold predict_batch in Hb. rewrite Hl in Hb.
    destruct batch as [|a [|b [|c batch]]]; try discriminate.
    cbn in Hb. injection Hb as <-. cbn in *.
    split; [exact Hloss|]. destruct Havail; auto.
Qed.

Lemma predict_empty_labels (token_ids input_mask : list (list num)) (bs : Z) :
  predict model argmax cross_entropy token_ids input_mask (Some []) bs
  = predict model argmax cross_entropy token_ids input_mask None bs.
Proof.
  unfold predict.
  change (create_data_loader token_ids input_mask (Some []) "sequential" bs)
    with (create_data_loader token_ids input_mask None "sequential" bs).
  destruct (create_data_loader _ _ None _ _) as [dl|e]; [|reflexivity].
  cbn [bind]. rewrite predict_loop_empty_labels. reflexivity.
Qed.

Lemma predict_no_labels (labels : option (list (list num)))
    (token_ids input_mask : list (list num)) (bs : Z) (p : prediction Loss) :
  truthy labels = false ->
  predict model argmax cross_entropy token_ids input_mask labels bs = Ok p ->
  eval_loss p = [] /\ loss_printed p = false.
Proof.
  intros Hl. unfold predict.
  destruct (create_data_loader _ _ _ _ _) as [dl|e]; [|discriminate].
  cbn [bind].
  destruct (predict_loop _ _ _ _ _ _) as [st|e] eqn:Hloop; [|discriminate].
  cbn [bind]. apply predict_loop_no_labels in Hloop as [Hloss Havail];
    [|exact Hl].
  cbn in Hloss, Havail.
  destruct (st_true_label_available st) as [b|] eqn:Hb; [|discriminate].
  intros [= <-]. cbn. split; [exact Hloss|].
  destruct Havail; congruence.
Qed.

End TokenPredict.

(** C10: label presence is decided by truthiness at the batching and
    prediction layer: [create_data_loader] with [label_ids = []] is the
    call with [label_ids = None] and its dataset holds the id and mask
    tensors only; [predict] with [labels = []] is [predict] with
    [labels = None], adds no batch loss and prints no evaluation loss;
    whereas [preprocess_ner_tokens] with [labels = []] returns a
    4-tuple. *)
Theorem C10_label_presence_by_truthiness :
  (forall input_ids input_mask sample_method bs,
      create_data_loader input_ids input_mask (Some []) sample_method bs
      = create_data_loader input_ids input_mask None sample_method bs
      /\ forall dl,
           create_data_loader input_ids input_mask (Some []) sample_method bs
           = Ok dl ->
           dataset dl = [Tensor2 (map (map num_val) input_ids);
                         Tensor2 (map (map num_val) input_mask)])
  /\ (forall (Logit Loss : Type) (model : tensor -> tensor -> list (list Logit))
             (argmax : Logit -> Z) (cross_entropy : list Logit -> list Z -> Loss)
             token_ids input_mask bs,
         predict model argmax cross_entropy token_ids input_mask (Some []) bs
         = predict model argmax cross_entropy token_ids input_mask None bs
         /\ forall p,
              predict model argmax cross_entropy token_ids input_mask
                      (Some []) bs = Ok p ->
              eval_loss p = [] /\ loss_printed p = false)
  /\ (forall tk text max_len label_map tag,
         max_len <= BERT_MAX_LEN ->
         preprocess_ner_tokens tk text max_len (Some []) label_map tag
         = Ok (Tuple4 [] [] [] [])).
Proof.
  split; [|split].
  - intros input_ids input_mask sample_method bs. split; [reflexivity|].
    intros dl Hdl. apply create_data_loader_Ok in Hdl as (_ & _ & ->).
    reflexivity.
  - intros Logit Loss model argmax cross_entropy token_ids input_mask bs.
    split; [apply predict_empty_labels|].
    intros p. apply predict_no_labels. reflexivity.
  - intros tk text max_len label_map tag Hmax.
    rewrite preprocess_ner_tokens_unfold by assumption.
    unfold ner_rows. cbn [default_labels].
    replace (zip text []) with (@nil (string * list string))
      by (destruct text; reflexivity).
    reflexivity.
Qed.


Lemma C10_witness :
  (exists dl,
     create_data_loader [[PyInt 1; PyInt 2]] [[PyInt 1; PyInt 1]] (Some [])
                        "sequential" 32 = Ok dl
     /\ dataset dl = [Tensor2 [[1; 2]]; Tensor2 [[1; 1]]])
  /\ (exists p,
        predict toy_model (fun x : Z => x) (fun _ _ => tt)
                [[PyInt 1; PyInt 2]] [[PyInt 1; PyInt 1]] (Some []) 32 = Ok p
        /\ eval_loss p = [] /\ loss_printed p = false)
  /\ preprocess_ner_tokens toy ["play soccer"] 4 (Some []) None "X"
     = Ok (Tuple4 [] [] [] []).
Proof.
  destruct C10_label_presence_by_truthiness as (Hloader & Hpredict & Hner).
  split; [|split].
  - eexists. split; [reflexivity|].
    apply (proj2 (Hloader [[PyInt 1; PyInt 2]] [[PyInt 1; PyInt 1]]
                          "sequential" 32)).
    reflexivity.
  - eexists. split; [reflexivity|].
    apply (proj2 (Hpredict Z unit toy_model (fun x : Z => x) (fun _ _ => tt)
                           [[PyInt 1; PyInt 2]] [[PyInt 1; PyInt 1]] 32)).
    reflexivity.
  - apply Hner. unfold BERT_MAX_LEN. lia.
Defined.

(** Predictions come back in input order, batch after batch. *)
Example predict_three_rows :
  predict toy_model (fun x : Z => x) (fun _ _ => tt)
          [[PyInt 1; PyInt 2]; [PyInt 3; PyInt 4]; [PyInt 5; PyInt 6]]
          [[PyInt 1; PyInt 1]; [PyInt 1; PyInt 1]; [PyInt 1; PyInt 1]]
          None 2
  = Ok {| predictions := [[1; 2]; [3; 4]; [5; 6]];
          eval_loss := []; loss_printed := false |}.
Proof. reflexivity. Qed.

(** With no row the loop body never runs and the flag it sets is
    unbound. *)
Example predict_no_rows :
  predict toy_model (fun x : Z => x) (fun _ _ => tt) [] [] None 32
  = Raise (UnboundLocalError "true_label_available").
Proof. reflexivity. Qed.

Lemma slice_window {A} (l : list A) (i bs : Z) :
  0 <= i -> 0 < bs ->
  slice l i (i + bs) = take (Z.to_nat bs) (drop (Z.to_nat i) l).
Proof.
  intros Hi Hbs. unfold slice, len.
  destruct (Z.ltb_spec i 0); [lia|].
  destruct (Z.ltb_spec (i + bs) 0); [lia|].
  destruct (Z.le_gt_cases (Z.of_nat (length l)) i).
  - rewrite !drop_ge by lia. rewrite !take_nil. reflexivity.
  - rewrite (Z.min_l i) by lia.
    destruct (Z.le_gt_cases (i + bs) (Z.of_nat (length l))).
    + rewrite Z.min_l by lia. f_equal. lia.
    + rewrite Z.min_r by lia.
      rewrite !take_ge; [reflexivity| |]; rewrite length_drop; lia.
Qed.

Lemma slice_map {A B} (f : A -> B) (l : list A) (i bs : Z) :
  0 <= i -> 0 < bs ->
  slice (map f l) i (i + bs) = map f (slice l i (i + bs)).
Proof.
  intros Hi Hbs. rewrite !slice_window by assumption.
  change (map f) with (fmap (M := list) f).
  rewrite fmap_take, fmap_drop. reflexivity.
Qed.

Lemma slice_zip_with {A B C} (f : A -> B -> C) (a : list A) (b : list B)
    (i bs : Z) :
  0 <= i -> 0 < bs ->
  zip_with f (slice a i (i + bs)) (slice b i (i + bs))
  = slice (zip_with f a b) i (i + bs).
Proof.
  intros Hi Hbs. rewrite !slice_window by assumption.
  rewrite <- zip_with_take, <- zip_with_drop. reflexivity.
Qed.

(** The windows of a sequential pass, put end to end, are the list. *)
Lemma concat_windows {A} (l : list A) (bs : Z) (fuel : nat) (i : Z) :
  0 < bs -> 0 <= i -> (Z.to_nat (len l - i) <= fuel)%nat ->
  concat (map (fun j => slice l j (j + bs)) (range_from fuel i (len l) bs))
  = drop (Z.to_nat i) l.
Proof.
  intros Hbs. revert i. induction fuel as [|fuel IH]; intros i Hi Hfuel.
  - cbn. rewrite drop_ge; [reflexivity|]. unfold len in *. lia.
  - cbn [range_from]. destruct (Z.ltb_spec i (len l)).
    + cbn [map concat]. rewrite IH by (unfold len in *; lia).
      rewrite slice_window by assumption.
      replace (Z.to_nat (i + bs)) with (Z.to_nat i + Z.to_nat bs)%nat by lia.
      rewrite <- drop_drop. apply take_drop.
    + cbn. rewrite drop_ge; [reflexivity|]. unfold len in *. lia.
Qed.

Lemma range_from_nonneg (fuel : nat) (i stop step : Z) :
  0 <= i -> 0 < step -> Forall (fun j => 0 <= j) (range_from fuel i stop step).
Proof.
  revert i. induction fuel as [|fuel IH]; intros i Hi Hs; cbn.
  - constructor.
  - destruct (i <? stop); constructor; [exact Hi|]. apply IH; lia.
Qed.

Lemma map_zip_with {A B C D} (g : C -> D) (f : A -> B -> C)
    (l : list A) (k : list B) :
  map g (zip_with f l k) = zip_with (fun x y => g (f x y)) l k.
Proof.
  revert k. induction l as [|x l IH]; intros [|y k]; try reflexivity.
  cbn. rewrite IH. reflexivity.
Qed.

Section TokenPredictOrder.

Context {Logit Loss : Type}.
Variable model : tensor -> tensor -> list (list Logit).
Variable argmax : Logit -> Z.
Variable cross_entropy : list Logit -> list Z -> Loss.

(** The model scores each row of a batch on its own. *)
Variable row_model : list Z -> list Z -> list Logit.
Hypothesis model_rows :
  forall a b, model (Tensor2 a) (Tensor2 b) = zip_with row_model a b.

Lemma predict_loop_windows (I M : list (list Z)) (bs : Z)
    (starts : list Z) (st : predict_state (Loss := Loss)) :
  predict_loop model argmax cross_entropy None st
    (map (fun i => map (fun t => tensor_slice t i (i + bs))
                       [Tensor2 I; Tensor2 M]) starts)
  = Ok {| st_predictions :=
            st_predictions st
            ++ concat (map (fun i =>
                 map (map argmax)
                     (zip_with row_model (slice I i (i + bs))
                                         (slice M i (i + bs)))) starts);
          st_eval_loss := st_eval_loss st;
          st_true_label_available :=
            match starts with
            | [] => st_true_label_available st
            | _ => Some false
            end |}.
Proof.
  revert st. induction starts as [|i starts IH]; intros st.
  - cbn. rewrite app_nil_r. destruct st; reflexivity.
  - cbn [map predict_loop tensor_slice].
    unfold predict_batch at 1. cbn [truthy bind fst snd].
    rewrite model_rows, IH. cbn [st_predictions st_eval_loss concat].
    rewrite <- app_assoc. f_equal. f_equal.
    destruct starts; reflexivity.
Qed.

(** With a model that scores each row on its own, the token-level
    [predict] returns one prediction row per input row, in input order,
    whatever the batch size. *)
Lemma predict_in_input_order (token_ids input_mask : list (list num))
    (bs : Z) :
  rows_wellformed token_ids input_mask None ->
  0 < bs ->
  token_ids <> [] ->
  predict model argmax cross_entropy token_ids input_mask None bs
  = Ok {| predictions :=
            zip_with (fun ids mask =>
                        map argmax (row_model (map num_val ids)
                                              (map num_val mask)))
                     token_ids input_mask;
          eval_loss := [];
          loss_printed := false |}.
Proof.
  intros Hwf Hbs Hne. unfold predict.
  rewrite create_data_loader_wellformed by assumption.
  cbn [dict_get name_to_sampler_class]. cbn -[dataset_of DataLoader].
  unfold DataLoader. destruct (Z.leb_spec bs 0); [lia|]. cbn [bind].
  unfold sequential_batches, dataset_of.
  cbn [dataset batch_size truthy app dataset_len size0].
  rewrite predict_loop_windows.
  cbn [st_predictions st_eval_loss st_true_label_available app].
  destruct Hwf as (_ & _ & Hlen & _).
  set (I := map (map num_val) token_ids).
  set (M := map (map num_val) input_mask).
  assert (Hn : 0 < len I).
  { unfold I. rewrite len_map. unfold len.
    destruct token_ids; [contradiction|cbn; lia]. }
  set (starts := range_from (Z.to_nat (len I)) 0 (len I) bs).
  assert (Hstarts : starts <> []).
  { unfold starts. destruct (Z.to_nat (len I)) eqn:E; [lia|].
    cbn. destruct (Z.ltb_spec 0 (len I)); [discriminate|lia]. }
  set (X := map (map argmax) (zip_with row_model I M)).
  assert (HX : len X = len I).
  { unfold X, len. rewrite length_map, length_zip_with.
    unfold I, M. rewrite !length_map. unfold len in Hlen. lia. }
  assert (Hconcat :
    concat (map (fun i => map (map argmax)
                   (zip_with row_model (slice I i (i + bs))
                                       (slice M i (i + bs)))) starts)
    = X).
  { transitivity (concat (map (fun j => slice X j (j + bs)) starts)).
    - f_equal. apply map_ext_Forall.
      eapply Forall_impl; [apply (range_from_nonneg _ 0 _ bs); lia|].
      intros j Hj. cbn beta. unfold X.
      rewrite slice_zip_with, slice_map by assumption. reflexivity.
    - unfold starts. rewrite <- HX.
      rewrite (concat_windows X bs (Z.to_nat (len X)) 0) by lia.
      reflexivity. }
  rewrite Hconcat.
  destruct starts; [contradiction|].
  f_equal. f_equal. unfold X, I, M.
  change (map (map num_val)) with (fmap (M := list) (map num_val)).
  rewrite zip_with_fmap_l, zip_with_fmap_r.
  rewrite map_zip_with. reflexivity.
Qed.

End TokenPredictOrder.

Section SequencePredict.

Context {Logit Probs : Type}.
Variable model : tensor -> tensor -> tensor -> list Logit.
Variable argmax : Logit -> Z.
Variable softmax : Logit -> Probs.

(** Without token type ids the first batch already fails, and with no
    batch at all there is nothing to concatenate. *)
Lemma xlnet_predict_without_token_type_ids
    (token_ids input_mask : list (list num)) (bs : Z) (probabilities : bool)
    (r : XLNetSequenceClassifier.predictions Probs) :
  XLNetSequenceClassifier.predict model argmax softmax token_ids input_mask
                                  None bs probabilities
  <> Ok r.
Proof.
  unfold XLNetSequenceClassifier.predict.
  destruct (range0 _ _) as [[|i starts]|e]; cbn [bind traverse];
    [discriminate| |discriminate].
  unfold XLNetSequenceClassifier.predict_batch at 1.
  destruct (torch_tensor _); cbn [bind]; [|discriminate].
  destruct (torch_tensor _); cbn [bind]; discriminate.
Qed.

End SequencePredict.

(** C6 at two rows and no token type ids: the sequence-level [predict]
    returns no prediction, it raises [TypeError] when it slices
    [token_type_ids]. *)
Theorem C6_xlnet_predict_needs_token_type_ids :
  forall (Logit Probs : Type) (model : tensor -> tensor -> tensor -> list Logit)
         (argmax : Logit -> Z) (softmax : Logit -> Probs)
         (probabilities : bool),
    XLNetSequenceClassifier.predict model argmax softmax
      [[PyInt 5; PyInt 6]; [PyInt 7; PyInt 0]]
      [[PyInt 1; PyInt 1]; [PyInt 1; PyInt 0]]
      None 8 probabilities
    = Raise (TypeError "'NoneType' object is not subscriptable").
Proof. intros. reflexivity. Qed.

(* ================================================================== *)
(** * The classifier wrappers: optimization steps *)
(* ================================================================== *)

Lemma ceil_div_loader (a b : Z) : 0 < b -> (a + b - 1) / b = ceil_div a b.
Proof.
  intros Hb. unfold ceil_div. symmetry.
  apply (Z.div_unique_pos _ _ _ (b - 1 - (- a) mod b)).
  - pose proof (Z.mod_pos_bound (- a) b Hb). lia.
  - pose proof (Z.div_mod (- a) b ltac:(lia)). lia.
Qed.

Lemma ceil_div_exact (a b : Z) :
  0 < b ->
  ceil_div a b = if a mod b =? 0 then a / b else a / b + 1.
Proof.
  intros Hb. rewrite <- ceil_div_loader by assumption.
  pose proof (Z.mod_pos_bound a b Hb) as Hm.
  pose proof (Z.div_mod a b ltac:(lia)) as Hd.
  destruct (Z.eqb_spec (a mod b) 0) as [H0|Hn].
  - symmetry. apply (Z.div_unique_pos _ _ _ (b - 1)); lia.
  - symmetry. apply (Z.div_unique_pos _ _ _ (a mod b - 1)); lia.
Qed.

Lemma int_truediv_floor (a b : Z) :
  0 <= a -> 0 < b -> int_truediv a b = Ok (a / b).
Proof.
  intros Ha Hb. unfold int_truediv.
  destruct (Z.eqb_spec b 0); [lia|].
  rewrite Z.quot_div_nonneg by lia. reflexivity.
Qed.





(* ================================================================== *)
(** * The download helper *)
(* ================================================================== *)

Lemma write_blocks_lookup (fs : gmap string (list byte)) (filepath : string)
    (blocks : list (list byte)) :
  write_blocks fs filepath blocks !! filepath = Some (concat blocks).
Proof.
  unfold write_blocks.
  assert (H : forall (fs0 : gmap string (list byte)) content,
    fs0 !! filepath = Some content ->
    fold_left (fun fs data =>
                 <[filepath := default [] (fs !! filepath) ++ data]> fs)
              blocks fs0 !! filepath = Some (content ++ concat blocks)).
  { induction blocks as [|data blocks IH]; intros fs0 content Hc; cbn.
    - rewrite app_nil_r. exact Hc.
    - rewrite (IH _ (content ++ data)).
      + rewrite <- app_assoc. reflexivity.
      + rewrite Hc. cbn. apply lookup_insert_eq. }
  apply (H _ []). apply lookup_insert_eq.
Qed.

(** The file is there once the first half of [maybe_download] is over. *)
Lemma fetch_Ok (get : string -> result response) (url filepath : string)
    (fs fs1 : gmap string (list byte)) :
  fetch get url filepath fs = Ok fs1 ->
  exists content,
    fs1 !! filepath = Some content
    /\ (fs !! filepath = Some content /\ fs1 = fs
        \/ fs !! filepath = None
           /\ exists r, get url = Ok r
                        /\ content = concat (iter_content r 1024)).
Proof.
  unfold fetch. destruct (fs !! filepath) as [content|] eqn:Hfs.
  - intros [= <-]. exists content. auto.
  - destruct (get url) as [r|e] eqn:Hr; [|discriminate]. cbn [bind].
    intros [= <-]. exists (concat (iter_content r 1024)).
    split; [apply write_blocks_lookup|]. right. eauto.
Qed.



